(** * Klaviyo campaign analysis: segment lookup, paginated fetch loops,
      overlap analysis and revenue matching.

    A shallow embedding of [analyze_segments.py] ([get_all_segments],
    [get_segment_profile_ids], [find_segment], the overlap analysis of
    [main]) and of [export_campaign_revenue.py] ([get_campaign_revenue],
    the dictionary built by [get_all_campaign_revenue], the matching
    loop of [main]).

    Python [str] values are [string]; Python sets of identifiers are
    [gset string]; dictionaries keyed by strings are [gmap string _];
    numbers that are only compared or copied are [Z] and [Q]; a
    character of a [string] stands for one character of the Python
    string.  The HTTP API is a deterministic function from the number of
    requests already made and the request to a response whose body
    decodes.  Every effect of the scripts (requests, sleeps, printed
    lines) is appended to a log that is threaded through the code.  A
    [while] loop that may go on for ever takes a bound on its iterations
    and returns [None] when the bound is reached; a recursion takes the
    number of nested calls the interpreter has room for and ends in
    [RecursionError] beyond it. *)

From Stdlib Require Import String Ascii ZArith QArith List Lia.
From stdpp Require Import base gmap sets list strings.

(* [set_solver] clears hypotheses by name and warns when one is gone. *)
Local Set Warnings "-clear-no-such-hyp".

(** ** Python string primitives *)

(** [needle in hay] on [str]: [needle] occurs as a contiguous run. *)
Fixpoint str_in (needle hay : string) : bool :=
  String.prefix needle hay ||
  match hay with
  | EmptyString => false
  | String _ rest => str_in needle rest
  end.

(** [c.lower()] on one ASCII character. *)
Definition ascii_lower_char (c : ascii) : ascii :=
  let n := nat_of_ascii c in
  if (65 <=? n)%nat && (n <=? 90)%nat then ascii_of_nat (n + 32) else c.

(** [s.lower()] on ASCII text. *)
Fixpoint ascii_lower (s : string) : string :=
  match s with
  | EmptyString => EmptyString
  | String c rest => String (ascii_lower_char c) (ascii_lower rest)
  end.

(** Truth value of a Python [str]-or-[None]: [None] and the empty string
    are false. *)
Definition truthy (v : option string) : bool :=
  match v with
  | None => false
  | Some s => negb (String.eqb s "")
  end.

(** ** Segments and [find_segment] (analyze_segments.py) *)

(** The dictionaries [{"id": ..., "name": ...}] built by
    [get_all_segments]. *)
Record segment := Segment { seg_id : string; seg_name : string }.

Section FindSegment.

(** [str.lower]; the development is generic in it, the examples use
    [ascii_lower]. *)
Variable lower : string -> string.

(** [s["name"].lower() == search_lower] *)
Definition exact_match (search : string) (s : segment) : bool :=
  String.eqb (lower (seg_name s)) (lower search).

(** [search_lower in s["name"].lower()] *)
Definition partial_match (search : string) (s : segment) : bool :=
  str_in (lower search) (lower (seg_name s)).

(** The first loop of [find_segment]: return the first exact match. *)
Fixpoint first_exact (search : string) (segments : list segment)
  : option segment :=
  match segments with
  | [] => None
  | s :: rest =>
      if exact_match search s then Some s else first_exact search rest
  end.

Definition find_segment (segments : list segment) (search : string)
  : option segment :=
  match first_exact search segments with
  | Some s => Some s
  | None =>
      let matches := List.filter (partial_match search) segments in
      match matches with
      | [m] => Some m
      | _ => None
      end
  end.

(** What the two tests mean: the lowered names are equal; the
    lowered search string occurs inside the lowered name. *)
Definition name_equals (search : string) (s : segment) : Prop :=
  lower (seg_name s) = lower search.

Definition name_contains (search : string) (s : segment) : Prop :=
  exists before after,
    lower (seg_name s) = before +:+ lower search +:+ after.

End FindSegment.

(** ** The HTTP boundary *)

(** Query parameters of a request, as in [{"page[size]": 100}]. *)
Definition params := list (string * Z).

(** A JSON:API resource object; only ["id"] and
    [["attributes"]["name"]] are read by the scripts. *)
Record attributes := Attributes { name : option string }.
Record resource := Resource { res_id : string; res_attributes : attributes }.

(** The decoded body of a page, [{data: [...], links: {next: ...}}].
    A key that is absent from the JSON object is [None]; so is a
    ["next"] that is absent or null. *)
Record links_obj := Links { next : option string }.
Record page := Page { data : option (list resource); links : option links_obj }.

Record response := Response { status_code : Z; json : page }.

(** The ["dimensions"] of one aggregate result: a list, a dictionary,
    or a bare string. *)
Inductive dimensions :=
| Dim_list (l : list string)
| Dim_dict (d : gmap string string)
| Dim_str (s : string).

(** A number of a decoded JSON body or one computed from it: a finite
    one (a Python [int] of any size, or a finite [float]) is the
    rational it denotes; a [float] can also be an infinity or a NaN,
    which [response.json()] gives for [1e400], [Infinity] and [NaN]. *)
Inductive number :=
| Num (x : Q)
| Inf (negative : bool)
| NaN.

Coercion Num : Q >-> number.
Bind Scope Q_scope with number.

(** A measurement: a list of numbers or a bare number. *)
Inductive measurement :=
| M_list (l : list number)
| M_num (x : number).

(** One element of the aggregate response's data list; an absent key is
    [None]. *)
Record aggregate_result := Aggregate_result {
  agg_dimensions : option dimensions;
  agg_sum_value : option measurement;
  agg_count : option measurement
}.

(** The body of a metric-aggregates query: the metric, the two ends of
    the time window and the message the results are filtered on. *)
Record aggregate_query := Aggregate_query {
  q_metric_id : string;
  q_start_date : string;
  q_end_date : string;
  q_attributed_message : string
}.

(** The answer to a metric-aggregates query;
    [data.get("data", {}).get("attributes", {}).get("data", [])] is
    [agg_results]. *)
Record aggregate_response := Aggregate_response {
  agg_status_code : Z;
  agg_results : list aggregate_result
}.

(** The lines the scripts print:
    - [Fetching_segments]: ["Fetching segments..."]
    - [Fetching_profiles n]: ["  Fetching profiles from '{n}'..."]
    - [Rate_limited]: ["    Rate limited, waiting..."]
    - [Profiles_error status]: ["    Error: {status}"]
    - [Progress n], [Total n]: the two profile counts
    - [Error_status status]: ["Error: {status}"]
    - [Fetching_revenue n]: ["Fetching revenue for: {n}..."]
    - [Payload q]: the debug line with the payload
    - [Rate_limited_30s]: ["Rate limited, waiting 30s..."]
    - [Error_body r]: the body printed after a failed query
    - [Revenue_line revenue orders]: ["${revenue:,.2f} ({orders} orders)"] *)
Inductive line :=
| Fetching_segments
| Fetching_profiles (segment_name : string)
| Rate_limited
| Profiles_error (status : Z)
| Progress (count : nat)
| Total (count : nat)
| Error_status (status : Z)
| Fetching_revenue (campaign_name : string)
| Payload (q : aggregate_query)
| Rate_limited_30s
| Error_body (r : aggregate_response)
| Revenue_line (revenue orders : number).

(** Observable effects, in the order they happen. *)
Inductive event :=
| Get (url : string) (ps : option params) (r : response)
| Post (url : string) (q : aggregate_query) (r : aggregate_response)
| Sleep (seconds : Q)
| Print (l : line).

(** The world threaded through the scripts: how many requests were
    made so far, and the log of effects. *)
Record world := World { requests : nat; log : list event }.

(** The exceptions a call can end in. *)
Inductive exception :=
| IndexError
| OverflowError
| ValueError
| RecursionError.

(** How a call that can raise ends: it returns a value, or an exception
    leaves it uncaught; the world is the one reached by then. *)
Inductive outcome (A : Type) :=
| Returns (a : A) (w : world)
| Raises (e : exception) (w : world).

Arguments Returns {A} a w.
Arguments Raises {A} e w.

Definition sleep (seconds : Q) (w : world) : world :=
  {| requests := requests w; log := log w ++ [Sleep seconds] |}.

Definition print (l : line) (w : world) : world :=
  {| requests := requests w; log := log w ++ [Print l] |}.

(** [profile_ids.add(x)] *)
Definition set_add (x : string) (s : gset string) : gset string := {[x]} ∪ s.

(** [for profile in profiles: profile_ids.add(profile["id"])] *)
Definition add_profiles (profiles : list resource) (profile_ids : gset string)
  : gset string :=
  foldl (fun acc profile => set_add (res_id profile) acc) profile_ids profiles.

(** [data.get("data", [])] *)
Definition get_data (body : page) : list resource :=
  match data body with Some l => l | None => [] end.

(** [data.get("links", {}).get("next")] *)
Definition get_next (body : page) : option string :=
  match links body with Some l => next l | None => None end.

(** [{"id": segment["id"], "name": segment["attributes"].get("name", "")}] *)
Definition segment_of (r : resource) : segment :=
  {| seg_id := res_id r;
     seg_name := match name (res_attributes r) with Some n => n | None => "" end |}.

(** [params = {"page[size]": 100}] *)
Definition page_size_params : params := [("page[size]", 100%Z)].

(** [params if "?" not in url else None] *)
Definition params_for (url : string) : option params :=
  if str_in "?" url then None else Some page_size_params.

Section Api.

(** Configuration ([config.py]). *)
Variable BASE_URL : string.
Variable RATE_LIMIT_DELAY : Q.

(** The API: the answer to the [n]-th request (counting from 0). *)
Variable server : nat -> string -> option params -> response.

(** [requests.get(url, headers=HEADERS, params=ps)] *)
Definition http_get (url : string) (ps : option params) (w : world)
  : response * world :=
  let r := server (requests w) url ps in
  (r, {| requests := S (requests w); log := log w ++ [Get url ps r] |}).

(** The [while] loop of [get_segment_profile_ids].  [fuel] bounds the
    number of iterations; [None] means the loop is still running when
    the fuel is spent. *)
Fixpoint profiles_loop (fuel : nat) (max_profiles : Z)
    (url : option string) (profile_ids : gset string) (w : world)
  : option (gset string * world) :=
  match url with
  | Some u =>
      (* while url and len(profile_ids) < max_profiles *)
      if negb (String.eqb u "")
         && (Z.of_nat (size profile_ids) <? max_profiles)%Z then
        match fuel with
        | O => None
        | S fuel' =>
            let (response, w1) := http_get u (params_for u) w in
            if (status_code response =? 429)%Z then
              (* sleep, then continue *)
              profiles_loop fuel' max_profiles url profile_ids
                (sleep 30 (print Rate_limited w1))
            else if negb (status_code response =? 200)%Z then
              (* break *)
              Some (profile_ids, print (Profiles_error (status_code response)) w1)
            else
              let body := json response in
              let profile_ids' := add_profiles (get_data body) profile_ids in
              let n := size profile_ids' in
              let w2 :=
                if (n mod 1000 =? 0)%nat && (0 <? n)%nat
                then print (Progress n) w1 else w1 in
              let url' := get_next body in
              let w3 := if truthy url' then sleep RATE_LIMIT_DELAY w2 else w2 in
              profiles_loop fuel' max_profiles url' profile_ids' w3
        end
      else Some (profile_ids, w)
  | None => Some (profile_ids, w)
  end.

Definition profiles_url (segment_id : string) : string :=
  BASE_URL +:+ "/segments/" +:+ segment_id +:+ "/profiles/".

Definition get_segment_profile_ids (fuel : nat)
    (segment_id segment_name : string) (max_profiles : Z) (w : world)
  : option (gset string * world) :=
  let w0 := print (Fetching_profiles segment_name) w in
  match profiles_loop fuel max_profiles (Some (profiles_url segment_id)) ∅ w0 with
  | Some (profile_ids, w') =>
      Some (profile_ids, print (Total (size profile_ids)) w')
  | None => None
  end.

(** The [while] loop of [get_all_segments]. *)
Fixpoint segments_loop (fuel : nat) (url : option string)
    (segments : list segment) (w : world)
  : option (list segment * world) :=
  match url with
  | Some u =>
      (* while url *)
      if negb (String.eqb u "") then
        match fuel with
        | O => None
        | S fuel' =>
            let (response, w1) := http_get u None w in
            if negb (status_code response =? 200)%Z then
              (* return segments *)
              Some (segments, print (Error_status (status_code response)) w1)
            else
              let body := json response in
              let segments' := segments ++ map segment_of (get_data body) in
              let url' := get_next body in
              let w2 := if truthy url' then sleep (3 # 10) w1 else w1 in
              segments_loop fuel' url' segments' w2
        end
      else Some (segments, w)
  | None => Some (segments, w)
  end.

Definition get_all_segments (fuel : nat) (w : world)
  : option (list segment * world) :=
  segments_loop fuel (Some (BASE_URL +:+ "/segments/")) []
    (print Fetching_segments w).

End Api.

(** The loop test of [get_segment_profile_ids],
    [url and len(profile_ids) < max_profiles], as a proposition. *)
Definition running (max_profiles : Z) (url : option string)
    (profile_ids : gset string) : Prop :=
  truthy url = true /\ (Z.of_nat (size profile_ids) < max_profiles)%Z.

(** ** Reading a log *)

(** The requests of a log, in order, each with the response received. *)
Fixpoint gets_of (l : list event) : list (string * option params * response) :=
  match l with
  | [] => []
  | Get url ps r :: rest => (url, ps, r) :: gets_of rest
  | _ :: rest => gets_of rest
  end.

(** The durations slept, in order. *)
Fixpoint sleeps_of (l : list event) : list Q :=
  match l with
  | [] => []
  | Sleep d :: rest => d :: sleeps_of rest
  | _ :: rest => sleeps_of rest
  end.

(** The identifiers carried by the pages that came back with status 200,
    in the order the loop inserts them. *)
Fixpoint ids_of (l : list event) : list string :=
  match l with
  | [] => []
  | Get _ _ r :: rest =>
      if (status_code r =? 200)%Z
      then map res_id (get_data (json r)) ++ ids_of rest
      else ids_of rest
  | _ :: rest => ids_of rest
  end.

(** Where the fetch loop goes after the response [r] to a request for
    [url]: the same URL again after a 429, the server's next link after
    a 200, nowhere after any other status. *)
Definition next_request (url : string) (r : response) : option string :=
  if (status_code r =? 429)%Z then Some url
  else if (status_code r =? 200)%Z then get_next (json r)
  else None.

(** A run of requests that starts at [url], attaches to every request
    the parameters [params_for] gives its URL, and moves from one
    request to the next by [next_request]. *)
Fixpoint request_chain (url : option string)
    (gets : list (string * option params * response)) : Prop :=
  match gets with
  | [] => True
  | (u, ps, r) :: rest =>
      url = Some u /\ ps = params_for u /\ request_chain (next_request u r) rest
  end.

(** The effects of one rate-limited attempt on [url]. *)
Definition retry_events (url : string) (r : response) : list event :=
  [Get url (params_for url) r; Print Rate_limited; Sleep 30].

(** The effects of [k] rate-limited attempts in a row on [url], the
    first of them being request number [n]. *)
Fixpoint retries_log (server : nat -> string -> option params -> response)
    (url : string) (n k : nat) : list event :=
  match k with
  | O => []
  | S k' =>
      retry_events url (server n url (params_for url))
      ++ retries_log server url (S n) k'
  end.

(** Inserting identifiers one after the other, as the loop does. *)
Definition add_ids (ids : list string) (s : gset string) : gset string :=
  foldl (fun acc x => set_add x acc) s ids.

(** The identifiers on the first [j] pages of a resource, in order. *)
Fixpoint ids_upto (pages : nat -> list resource) (j : nat) : list string :=
  match j with
  | O => []
  | S j' => ids_upto pages j' ++ map res_id (pages j')
  end.

(** ** Overlap analysis ([main] of analyze_segments.py) *)

(** The counts printed by the overlap analysis; a count is [None] when
    its [if] guard fails and the line is not printed. *)
Record overlap_report := Overlap_report {
  no_d8_and_no_thca : option nat;
  only_d8 : option nat;
  no_d8_and_semi_active : option nat;
  three_way : option nat
}.

Definition overlap_analysis (segment_profiles : gmap string (gset string))
  : overlap_report :=
  let d8 := segment_profiles !! "No Delta 8" in
  let thca := segment_profiles !! "No THCA" in
  let semi := segment_profiles !! "Semi Active" in
  {| no_d8_and_no_thca :=
       match d8, thca with
       | Some a, Some b => Some (size (a ∩ b))
       | _, _ => None
       end;
     only_d8 :=
       match d8, thca with
       | Some a, Some b => Some (size (a ∖ b))
       | _, _ => None
       end;
     no_d8_and_semi_active :=
       match d8, semi with
       | Some a, Some c => Some (size (a ∩ c))
       | _, _ => None
       end;
     three_way :=
       match d8, thca, semi with
       | Some a, Some b, Some c => Some (size (a ∩ b ∩ c))
       | _, _, _ => None
       end |}.

(** ** Revenue matching (export_campaign_revenue.py) *)

(** A value of [revenue_data]: [{"revenue": ..., "orders": ...}].  The
    revenue is only copied by the matching step, so a finite float is
    kept as the rational it denotes. *)
Record revenue_entry := Revenue_entry { revenue : number; orders : Z }.

(** A campaign dictionary as [get_campaigns] returns it. *)
Record campaign := Campaign {
  campaign_id : string;
  campaign_name : string;
  subject : string;
  send_time : string;
  message_id : option string
}.

(** The same dictionary after the matching loop has stored
    ["revenue"] and ["orders"] in it. *)
Record campaign_row := Campaign_row {
  row_campaign : campaign;
  row_revenue : number;
  row_orders : Z
}.

(** [message_id and message_id in revenue_data]; the entry found, if
    the test succeeds. *)
Definition lookup_revenue (revenue_data : gmap string revenue_entry)
    (message_id : option string) : option revenue_entry :=
  match message_id with
  | Some m => if truthy message_id then revenue_data !! m else None
  | None => None
  end.

(** One iteration of the matching loop of [main]. *)
Definition match_campaign (revenue_data : gmap string revenue_entry)
    (c : campaign) : campaign_row :=
  match lookup_revenue revenue_data (message_id c) with
  | Some e =>
      {| row_campaign := c; row_revenue := revenue e; row_orders := orders e |}
  | None =>
      {| row_campaign := c; row_revenue := 0; row_orders := 0 |}
  end.

(** The matching loop: the campaigns with their revenue, [total_orders]
    and [matched_count].  (The float sum [total_revenue], used only by
    the summary line, is left out.) *)
Fixpoint match_revenue (revenue_data : gmap string revenue_entry)
    (campaigns : list campaign) (total_orders : Z) (matched_count : nat)
  : list campaign_row * Z * nat :=
  match campaigns with
  | [] => ([], total_orders, matched_count)
  | c :: rest =>
      let row := match_campaign revenue_data c in
      let matched_count' :=
        match lookup_revenue revenue_data (message_id c) with
        | Some _ => S matched_count
        | None => matched_count
        end in
      let '(rows, t, m) :=
        match_revenue revenue_data rest (total_orders + row_orders row)%Z
          matched_count' in
      (row :: rows, t, m)
  end.

(** *** Building [revenue_data] ([get_all_campaign_revenue]) *)

(** The [message_id] the loop reads from a result. *)
Definition result_message_id (result : aggregate_result) : string :=
  match agg_dimensions result with
  | None => ""
  | Some (Dim_list l) => match l with x :: _ => x | [] => "" end
  | Some (Dim_dict d) =>
      match d !! "$attributed_message" with Some x => x | None => "" end
  | Some (Dim_str s) => s
  end.

(** [v[0] if isinstance(v, list) else v], with [default] for an absent
    key; indexing an empty list raises. *)
Definition first_value (v : option measurement) (default : measurement)
  : option number :=
  match (match v with Some x => x | None => default end) with
  | M_list (x :: _) => Some x
  | M_list [] => None
  | M_num x => Some x
  end.

(** [int(x)] on a finite number: truncation towards zero. *)
Definition py_int (x : Q) : Z := Z.quot (Qnum x) (Zpos (Qden x)).

(** [int(x)]: an infinity raises [OverflowError], a NaN [ValueError]. *)
Definition int_of (x : number) : exception + Z :=
  match x with
  | Num q => inr (py_int q)
  | Inf _ => inl OverflowError
  | NaN => inl ValueError
  end.

(** [round(float(x), 2)], given what it does on a finite number
    ([round2]): an infinity and a NaN are floats already and are rounded
    to themselves; [None] when [float] raises [OverflowError]. *)
Definition round_float (round2 : Q -> option Q) (x : number) : option number :=
  match x with
  | Num q => option_map Num (round2 q)
  | Inf _ | NaN => Some x
  end.

Section RevenueData.

(** [round(float(x), 2)] on a finite number, kept abstract: the result,
    or [None] when [float(x)] raises [OverflowError] ([x] is an [int]
    too large for a float). *)
Variable round2 : Q -> option Q.

(** One iteration of the loop over [results]; [None] when it raises:
    [IndexError] from indexing an empty list, [OverflowError] or
    [ValueError] from [float] and [int].  ([x or 0] leaves a number as
    it is: the only false numbers are zeros.) *)
Definition add_result (revenue_by_campaign : gmap string revenue_entry)
    (result : aggregate_result) : option (gmap string revenue_entry) :=
  let message_id := result_message_id result in
  if truthy (Some message_id) then
    match first_value (agg_sum_value result) (M_list [Num 0]),
          first_value (agg_count result) (M_list [Num 0]) with
    | Some revenue, Some orders =>
        match round_float round2 revenue, int_of orders with
        | Some revenue', inr orders' =>
            Some (<[message_id := {| revenue := revenue';
                                     orders := orders' |}]>
                    revenue_by_campaign)
        | _, _ => None
        end
    | _, _ => None
    end
  else Some revenue_by_campaign.

Fixpoint add_results (revenue_by_campaign : gmap string revenue_entry)
    (results : list aggregate_result) : option (gmap string revenue_entry) :=
  match results with
  | [] => Some revenue_by_campaign
  | result :: rest =>
      match add_result revenue_by_campaign result with
      | Some revenue_by_campaign' => add_results revenue_by_campaign' rest
      | None => None
      end
  end.

(** The dictionary [get_all_campaign_revenue] builds from the results
    of a 200 response. *)
Definition revenue_by_campaign_of (results : list aggregate_result)
  : option (gmap string revenue_entry) :=
  add_results ∅ results.

End RevenueData.

(** *** One campaign at a time ([get_campaign_revenue]) *)

(** The queries of a log, in order. *)
Fixpoint posts_of (l : list event)
  : list (string * aggregate_query * aggregate_response) :=
  match l with
  | [] => []
  | Post url q r :: rest => (url, q, r) :: posts_of rest
  | _ :: rest => posts_of rest
  end.

(** The measurement [get_campaign_revenue] reads: the first element of a
    list, 0 for an empty list or an absent key, a bare number as it is
    ([x or 0]). *)
Definition first_or_zero (v : option measurement) : number :=
  match v with
  | None => 0
  | Some (M_list (x :: _)) => x
  | Some (M_list []) => 0
  | Some (M_num x) => x
  end.

Section CampaignRevenue.

Variable BASE_URL : string.

(** The metric-aggregates endpoint: the answer to the [n]-th request. *)
Variable aggregates : nat -> string -> aggregate_query -> aggregate_response.

(** [round(float(x), 2)] on a finite number, kept abstract: the result,
    or [None] when [float(x)] raises [OverflowError]. *)
Variable round2 : Q -> option Q.

(** [requests.post(url, headers=HEADERS, json=payload)] *)
Definition http_post (url : string) (payload : aggregate_query) (w : world)
  : aggregate_response * world :=
  let r := aggregates (requests w) url payload in
  (r, {| requests := S (requests w); log := log w ++ [Post url payload r] |}).

(** [url = f"{BASE_URL}/metric-aggregates/"] *)
Definition aggregates_url : string := BASE_URL +:+ "/metric-aggregates/".

(** The payload: the metric, the window, and the filter
    [equals($attributed_message, "{campaign_id}")]. *)
Definition campaign_query (campaign_id metric_id start_date end_date : string)
  : aggregate_query :=
  {| q_metric_id := metric_id; q_start_date := start_date;
     q_end_date := end_date; q_attributed_message := campaign_id |}.

(** [get_campaign_revenue] calls itself after a 429.  [depth] is the
    number of nested calls of the function for which the interpreter's
    recursion limit leaves room to carry out their request.  The call
    after them prints its first line and runs out of frames inside
    [requests.post]: it raises [RecursionError], which nothing catches.

    On a 200 the line with the two figures is formatted with
    [{revenue:,.2f}], which converts an [int] as [float] does: when
    [float(revenue)] raises [OverflowError], so does the [print], and
    nothing is printed.  [int(orders)] is evaluated after the line is
    printed. *)
Fixpoint get_campaign_revenue (depth : nat)
    (campaign_id campaign_name metric_id start_date end_date : string)
    (debug : bool) (w : world) : outcome revenue_entry :=
  let w0 := print (Fetching_revenue (String.substring 0 40 campaign_name)) w in
  let url := aggregates_url in
  let payload := campaign_query campaign_id metric_id start_date end_date in
  let w1 := if debug then print (Payload payload) w0 else w0 in
  match depth with
  | O => Raises RecursionError w1
  | S depth' =>
      let (response, w2) := http_post url payload w1 in
      if (agg_status_code response =? 429)%Z then
        get_campaign_revenue depth' campaign_id campaign_name metric_id
          start_date end_date false (sleep 30 (print Rate_limited_30s w2))
      else if negb (agg_status_code response =? 200)%Z then
        Returns {| revenue := 0; orders := 0 |}
                (print (Error_body response)
                   (print (Error_status (agg_status_code response)) w2))
      else
        let '(revenue_raw, orders_raw) :=
          match agg_results response with
          | first :: _ =>
              (first_or_zero (agg_sum_value first),
               first_or_zero (agg_count first))
          | [] => (Num 0, Num 0)
          end in
        match round_float round2 revenue_raw with
        | None => Raises OverflowError w2
        | Some revenue' =>
            let w3 := print (Revenue_line revenue_raw orders_raw) w2 in
            match int_of orders_raw with
            | inl e => Raises e w3
            | inr orders' =>
                Returns {| revenue := revenue'; orders := orders' |} w3
            end
        end
  end.

End CampaignRevenue.

(** ** Scenarios *)

(** The segments of the lookup scenario. *)
Definition scenario_segments : list segment :=
  [ Segment "S1" "No Delta 8"; Segment "S2" "No THCA" ].

(** Two segments whose names differ only in case. *)
Definition tie_segments : list segment :=
  [ Segment "S0" "Semi Active (old)"; Segment "S1" "Semi Active";
    Segment "S2" "SEMI ACTIVE" ].

(** A page with no keys at all, and the page that ends a collection. *)
Definition no_keys : page := {| data := None; links := None |}.
Definition last_page (profiles : list resource) : page :=
  {| data := Some profiles; links := Some {| next := None |} |}.
Definition page_with_next (profiles : list resource) (url : string) : page :=
  {| data := Some profiles; links := Some {| next := Some url |} |}.

Definition profile (id : string) : resource :=
  {| res_id := id; res_attributes := {| name := None |} |}.

(** A server that answers 429 to everything. *)
Definition always_429 : nat -> string -> option params -> response :=
  fun _ _ _ => {| status_code := 429; json := no_keys |}.

(** A server that answers 429 five times, then an empty last page. *)
Definition five_429_then_ok : nat -> string -> option params -> response :=
  fun n _ _ =>
    if (n <? 5)%nat then {| status_code := 429; json := no_keys |}
    else {| status_code := 200; json := last_page [] |}.

Definition start : world := {| requests := 0; log := [] |}.

Definition api : string := "https://a.klaviyo.com/api".
Definition seg1_profiles_url : string :=
  "https://a.klaviyo.com/api/segments/SEG1/profiles/".

Definition page2_url : string :=
  "https://a.klaviyo.com/api/segments/SEG1/profiles/?page%5Bcursor%5D=bmV4dDo6aWQ6OjAx".

(** A server whose first page holds [a] and [b] and links to a second
    page, and whose every later answer is the failure [status]. *)
Definition fails_on_page_2 (status : Z)
  : nat -> string -> option params -> response :=
  fun n _ _ =>
    if (n =? 0)%nat
    then {| status_code := 200;
            json := page_with_next [profile "a"; profile "b"] page2_url |}
    else {| status_code := status; json := no_keys |}.

(** A server whose collection is the single page [a], [b]. *)
Definition one_page : nat -> string -> option params -> response :=
  fun _ _ _ =>
    {| status_code := 200; json := last_page [profile "a"; profile "b"] |}.

(** A server whose collection is two pages: [a], [b], then [c], [d]. *)
Definition two_pages : nat -> string -> option params -> response :=
  fun n _ _ =>
    if (n =? 0)%nat
    then {| status_code := 200;
            json := page_with_next [profile "a"; profile "b"] page2_url |}
    else {| status_code := 200; json := last_page [profile "c"; profile "d"] |}.

(** What a caller of [get_segment_profile_ids] holds when the call
    returns: the set, or nothing if the call never returns. *)
Definition returned (run : option (gset string * world)) : option (gset string) :=
  match run with
  | Some (profile_ids, _) => Some profile_ids
  | None => None
  end.

(** A server whose every answer is a 200 with an empty JSON object. *)
Definition keyless : nat -> string -> option params -> response :=
  fun _ _ _ => {| status_code := 200; json := no_keys |}.

(** A next link without a query string. *)
Definition plain_url : string :=
  "https://a.klaviyo.com/api/segments/SEG1/profiles/page-2/".

(** A server whose first page links to [plain_url]. *)
Definition plain_next : nat -> string -> option params -> response :=
  fun n _ _ =>
    if (n =? 0)%nat
    then {| status_code := 200;
            json := page_with_next [profile "a"; profile "b"] plain_url |}
    else {| status_code := 200; json := last_page [profile "c"] |}.

(** The world after [get_segment_profile_ids] has walked [two_pages]. *)
Definition two_pages_world : world :=
  {| requests := 2;
     log := [ Print (Fetching_profiles "No Delta 8");
              Get seg1_profiles_url (Some page_size_params)
                {| status_code := 200;
                   json := page_with_next [profile "a"; profile "b"] page2_url |};
              Sleep (1 # 2);
              Get page2_url None
                {| status_code := 200;
                   json := last_page [profile "c"; profile "d"] |};
              Print (Total 4) ] |}.

(** A server whose second page repeats an identifier of the first page
    and carries another one twice. *)
Definition dup_pages : nat -> string -> option params -> response :=
  fun n _ _ =>
    if (n =? 0)%nat
    then {| status_code := 200;
            json := page_with_next [profile "a"; profile "b"] page2_url |}
    else {| status_code := 200;
            json := last_page [profile "b"; profile "c"; profile "c"] |}.

Definition dup_pages_world : world :=
  {| requests := 2;
     log := [ Print (Fetching_profiles "No Delta 8");
              Get seg1_profiles_url (Some page_size_params)
                {| status_code := 200;
                   json := page_with_next [profile "a"; profile "b"] page2_url |};
              Sleep (1 # 2);
              Get page2_url None
                {| status_code := 200;
                   json := last_page [profile "b"; profile "c"; profile "c"] |};
              Print (Total 3) ] |}.

(** The pages and the page URLs of [two_pages]. *)
Definition two_pages_pages (k : nat) : list resource :=
  if (k =? 0)%nat then [profile "a"; profile "b"]
  else [profile "c"; profile "d"].

Definition two_pages_urls (k : nat) : string :=
  if (k =? 0)%nat then seg1_profiles_url else page2_url.

(** The sets of the overlap scenario. *)
Definition scenario_profiles : gmap string (gset string) :=
  {[ "No Delta 8" := {[ "1"; "2"; "3"; "4" ]};
     "No THCA" := {[ "3"; "4"; "5"; "6" ]} ]}.

(** Campaigns and aggregates of the matching scenario. *)
Definition scenario_campaigns : list campaign :=
  [ {| campaign_id := "C1"; campaign_name := "Spring"; subject := "Hi";
       send_time := "2025-03-01"; message_id := Some "M1" |};
    {| campaign_id := "C2"; campaign_name := "Summer"; subject := "Hey";
       send_time := "2025-06-01"; message_id := None |};
    {| campaign_id := "C3"; campaign_name := "Autumn"; subject := "Yo";
       send_time := "2025-09-01"; message_id := Some "M3" |} ].

Definition scenario_revenue : gmap string revenue_entry :=
  {[ "M1" := {| revenue := 1234 # 100; orders := 7 |} ]}.

(** [round(float(x), 2)] on the figures of the scenarios: integers and
    halves of moderate size, which are floats with at most two decimals
    and are left as they are, and integers of [2^1024] and more, which
    [float] rejects. *)
Definition round2_of_scenarios (x : Q) : option Q :=
  if (2 ^ 1024 <=? Z.abs (py_int x))%Z then None else Some x.

(** A metric-aggregates endpoint that answers 429 to everything. *)
Definition aggregates_always_429
  : nat -> string -> aggregate_query -> aggregate_response :=
  fun _ _ _ => {| agg_status_code := 429; agg_results := [] |}.


(** ** [get_segment_count] (analyze_segments.py) *)

(** The ["meta"] object of a profiles page, as far as it is read:
    ["total"] and [["page"]["total"]]; an absent key is [None]. *)
Record page_meta := Page_meta { page_total : option Z }.
Record meta_obj := Meta { meta_total : option Z; meta_page : option page_meta }.
Record count_response := Count_response {
  count_status : Z;
  count_meta : option meta_obj
}.

(** [params = {"page[size]": 1}] *)
Definition count_params : params := [("page[size]", 1%Z)].

(** What [get_segment_count] makes of the response. *)
Definition segment_count_of (r : count_response) : Z :=
  if negb (count_status r =? 200)%Z then (-1)%Z
  else
    let meta := match count_meta r with
                | Some m => m
                | None => {| meta_total := None; meta_page := None |}
                end in
    match meta_total meta with
    | Some total => total
    | None =>
        let page_info := match meta_page meta with
                         | Some p => p
                         | None => {| page_total := None |}
                         end in
        match page_total page_info with
        | Some total => total
        | None => (-1)%Z
        end
    end.

(** [get_segment_count]: one request, numbered [n]; the count and the
    number of requests made so far are returned. *)
Definition get_segment_count (BASE_URL : string)
    (count_api : nat -> string -> option params -> count_response)
    (segment_id : string) (n : nat) : Z * nat :=
  let url := profiles_url BASE_URL segment_id in
  let response := count_api n url (Some count_params) in
  (segment_count_of response, S n).

(** ** The other requests of export_campaign_revenue.py *)

(** A metric object; ["attributes"] is read with [.get]. *)
Record metric := Metric { m_id : string; m_attributes : option attributes }.
Record metrics_page := Metrics_page {
  m_data : option (list metric);
  m_links : option links_obj
}.
Record metrics_response := Metrics_response { m_status : Z; m_json : metrics_page }.

(** A campaign-message object; ["id"] is read with [.get]. *)
Record message := Message { msg_id : option string }.
Record messages_response := Messages_response {
  msg_status : Z;
  msg_data : option (list message)
}.

(** The payload of [get_all_campaign_revenue]: the metric and the time
    window, grouped by [$attributed_message]. *)
Record grouped_query := Grouped_query {
  g_metric_id : string;
  g_start_date : string;
  g_end_date : string
}.

(** A row of the campaign CSV, as [csv.DictReader] yields it. *)
Record csv_row := Csv_row {
  csv_campaign_id : string;
  csv_campaign_name : string;
  csv_subject : string;
  csv_send_time : string
}.

(** The campaign dictionary made from a row, with its
    ["message_id"] stored. *)
Definition campaign_of (row : csv_row) (message_id : option string) : campaign :=
  {| campaign_id := csv_campaign_id row;
     campaign_name := csv_campaign_name row;
     subject := csv_subject row;
     send_time := csv_send_time row;
     message_id := message_id |}.

(** The lines these functions print:
    - [Finding_metric]: ["Finding Placed Order metric..."]
    - [Error_fetching_metrics status]: ["Error fetching metrics: {status}"]
    - [Found_metric name id]: ["Found: {name} (ID: {id})"]
    - [Metric_not_found]: ["Placed Order metric not found"]
    - [No_campaign_csv]: ["No campaign CSV found. Run export_campaigns.py first."]
    - [Reading_campaigns f]: ["Reading campaigns from: {f}"]
    - [Fetching_message_ids n]: ["Fetching message IDs for {n} campaigns..."]
    - [Message_ids_done i n]: ["  {i}/{n} done..."]
    - [Found_message_ids k n]: ["Found message IDs for {k}/{n} campaigns"]
    - [Fetching_all_revenue]: ["Fetching all campaign-attributed revenue..."]
    - [Aggregate_error status]: ["Error: {status}"]
    - [Aggregate_error_body r]: the body (or its text) printed after it
    - [Raw_results_count n]: ["Raw results count: {n}"]
    - [First_result r]: ["First result structure: {r}"]
    - [Found_revenue_data n]:
      ["Found revenue data for {n} attributed messages"] *)
Inductive export_line :=
| Finding_metric
| Error_fetching_metrics (status : Z)
| Found_metric (metric_name id : string)
| Metric_not_found
| No_campaign_csv
| Reading_campaigns (csv_file : string)
| Fetching_message_ids (n : nat)
| Message_ids_done (i n : nat)
| Found_message_ids (k n : nat)
| Fetching_all_revenue
| Aggregate_error (status : Z)
| Aggregate_error_body (r : aggregate_response)
| Raw_results_count (n : nat)
| First_result (r : aggregate_result)
| Found_revenue_data (n : nat).

(** Their effects, in the order they happen. *)
Inductive export_event :=
| Get_metrics (url : string) (r : metrics_response)
| Get_messages (url : string) (r : messages_response)
| Post_grouped (url : string) (q : grouped_query) (r : aggregate_response)
| Nap (seconds : Q)
| Say (l : export_line).

Record export_world := Export_world { calls : nat; trace : list export_event }.

Definition nap (seconds : Q) (w : export_world) : export_world :=
  {| calls := calls w; trace := trace w ++ [Nap seconds] |}.

Definition say (l : export_line) (w : export_world) : export_world :=
  {| calls := calls w; trace := trace w ++ [Say l] |}.

(** [metric.get("attributes", {}).get("name", "")] *)
Definition metric_name (m : metric) : string :=
  match m_attributes m with
  | Some a => match name a with Some n => n | None => "" end
  | None => ""
  end.

(** [data.get("data", [])] and [data.get("links", {}).get("next")] on a
    page of metrics. *)
Definition get_metrics (body : metrics_page) : list metric :=
  match m_data body with Some l => l | None => [] end.

Definition get_metrics_next (body : metrics_page) : option string :=
  match m_links body with Some l => next l | None => None end.

(** The double quote character. *)
Definition dquote : string := String (ascii_of_nat 34) EmptyString.

(** The metrics seen on the 200 pages of a trace, in order. *)
Fixpoint metrics_seen (l : list export_event) : list metric :=
  match l with
  | [] => []
  | Get_metrics _ r :: rest =>
      if (m_status r =? 200)%Z
      then get_metrics (m_json r) ++ metrics_seen rest
      else metrics_seen rest
  | _ :: rest => metrics_seen rest
  end.

(** The naps of a trace, in order. *)
Fixpoint naps_of (l : list export_event) : list Q :=
  match l with
  | [] => []
  | Nap d :: rest => d :: naps_of rest
  | _ :: rest => naps_of rest
  end.

(** The entry the loop of [get_all_campaign_revenue] stores for a
    result; [None] when reading or converting a measurement raises. *)
Definition entry_of (round2 : Q -> option Q) (result : aggregate_result)
  : option revenue_entry :=
  match first_value (agg_sum_value result) (M_list [Num 0]),
        first_value (agg_count result) (M_list [Num 0]) with
  | Some revenue, Some orders =>
      match round_float round2 revenue, int_of orders with
      | Some revenue', inr orders' =>
          Some {| revenue := revenue'; orders := orders' |}
      | _, _ => None
      end
  | _, _ => None
  end.

(** [total_orders] and [matched_count] as sums over the campaigns. *)
Definition orders_sum (rows : list campaign_row) : Z :=
  foldr (fun row acc => (row_orders row + acc)%Z) 0%Z rows.

Definition matched (revenue_data : gmap string revenue_entry) (c : campaign)
  : bool :=
  match lookup_revenue revenue_data (message_id c) with
  | Some _ => true
  | None => false
  end.

Section ExportCalls.

Variable BASE_URL : string.

(** [str.lower] *)
Variable lower : string -> string.

(** The three endpoints: the answer to the [n]-th request. *)
Variable metrics_api : nat -> string -> metrics_response.
Variable messages_api : nat -> string -> messages_response.
Variable grouped_api : nat -> string -> grouped_query -> aggregate_response.

(** [round(float(x), 2)] on a finite number, kept abstract: the result,
    or [None] when [float(x)] raises [OverflowError]. *)
Variable round2 : Q -> option Q.

(** ["placed order" in name.lower()] *)
Definition is_placed_order (m : metric) : bool :=
  str_in "placed order" (lower (metric_name m)).

(** The [while] loop of [get_placed_order_metric_id]; [None] when the
    loop is still running after [fuel] iterations. *)
Fixpoint metrics_loop (fuel : nat) (url : option string) (w : export_world)
  : option (option string * export_world) :=
  match url with
  | Some u =>
      (* while url *)
      if negb (String.eqb u "") then
        match fuel with
        | O => None
        | S fuel' =>
            let response := metrics_api (calls w) u in
            let w1 := {| calls := S (calls w);
                         trace := trace w ++ [Get_metrics u response] |} in
            if negb (m_status response =? 200)%Z then
              Some (None, say (Error_fetching_metrics (m_status response)) w1)
            else
              let body := m_json response in
              match List.find is_placed_order (get_metrics body) with
              | Some m =>
                  Some (Some (m_id m), say (Found_metric (metric_name m) (m_id m)) w1)
              | None =>
                  metrics_loop fuel' (get_metrics_next body) (nap (1 # 2) w1)
              end
        end
      else Some (None, say Metric_not_found w)
  | None => Some (None, say Metric_not_found w)
  end.

Definition metrics_url : string := BASE_URL +:+ "/metrics/".

Definition get_placed_order_metric_id (fuel : nat) (w : export_world)
  : option (option string * export_world) :=
  metrics_loop fuel (Some metrics_url) (say Finding_metric w).

(** [f"{BASE_URL}/campaign-messages/?filter=equals(campaign.id,\"{campaign_id}\")"] *)
Definition message_url (campaign_id : string) : string :=
  BASE_URL +:+ "/campaign-messages/?filter=equals(campaign.id,"
  +:+ dquote +:+ campaign_id +:+ dquote +:+ ")".

(** What [get_campaign_message_id] makes of the response. *)
Definition message_id_of (r : messages_response) : option string :=
  if (msg_status r =? 200)%Z then
    match msg_data r with
    | Some (first :: _) => msg_id first
    | _ => None
    end
  else None.

Definition get_campaign_message_id (campaign_id : string) (w : export_world)
  : option string * export_world :=
  let url := message_url campaign_id in
  let response := messages_api (calls w) url in
  (message_id_of response,
   {| calls := S (calls w); trace := trace w ++ [Get_messages url response] |}).

(** The loop of [get_campaigns] that fetches the message IDs; [i] is the
    index of the first row and [n] the number of campaigns. *)
Fixpoint fetch_message_ids (rows : list csv_row) (i n : nat) (w : export_world)
  : list campaign * export_world :=
  match rows with
  | [] => ([], w)
  | row :: rest =>
      let (message_id, w1) := get_campaign_message_id (csv_campaign_id row) w in
      let c := campaign_of row message_id in
      let w2 := if ((i + 1) mod 10 =? 0)%nat
                then say (Message_ids_done (i + 1) n) w1 else w1 in
      let w3 := nap (1 # 2) w2 in
      let (campaigns, w4) := fetch_message_ids rest (S i) n w3 in
      (c :: campaigns, w4)
  end.

(** [get_campaigns].  [csv] is the CSV file the function settles on and
    its rows, or [None] when it finds no file. *)
Definition get_campaigns (csv : option (string * list csv_row)) (w : export_world)
  : list campaign * export_world :=
  match csv with
  | None => ([], say No_campaign_csv w)
  | Some (csv_file, rows) =>
      let w0 := say (Reading_campaigns csv_file) w in
      let n := length rows in
      let w1 := say (Fetching_message_ids n) w0 in
      let (campaigns, w2) := fetch_message_ids rows 0 n w1 in
      let with_msg :=
        length (List.filter (fun c => truthy (message_id c)) campaigns) in
      (campaigns, say (Found_message_ids with_msg n) w2)
  end.

(** [get_all_campaign_revenue]; [None] when building the dictionary
    raises. *)
Definition get_all_campaign_revenue (metric_id start_date end_date : string)
    (w : export_world) : option (gmap string revenue_entry * export_world) :=
  let w0 := say Fetching_all_revenue w in
  let url := aggregates_url BASE_URL in
  let payload := {| g_metric_id := metric_id; g_start_date := start_date;
                    g_end_date := end_date |} in
  let response := grouped_api (calls w0) url payload in
  let w1 := {| calls := S (calls w0);
               trace := trace w0 ++ [Post_grouped url payload response] |} in
  if negb (agg_status_code response =? 200)%Z then
    Some (∅, say (Aggregate_error_body response)
               (say (Aggregate_error (agg_status_code response)) w1))
  else
    let results := agg_results response in
    let w2 := say (Raw_results_count (length results)) w1 in
    let w3 := match results with
              | first :: _ => say (First_result first) w2
              | [] => w2
              end in
    match revenue_by_campaign_of round2 results with
    | Some revenue_by_campaign =>
        Some (revenue_by_campaign,
              say (Found_revenue_data (size revenue_by_campaign)) w3)
    | None => None
    end.

End ExportCalls.

(** The two figures [get_campaign_revenue] reads off a 200 response:
    those of the first result, 0 and 0 when there is none. *)
Definition raw_figures (results : list aggregate_result) : number * number :=
  match results with
  | first :: _ =>
      (first_or_zero (agg_sum_value first), first_or_zero (agg_count first))
  | [] => (Num 0, Num 0)
  end.

(** ** Further readings of a log *)

(** The segments carried by the pages that came back with status 200,
    in the order [get_all_segments] appends them. *)
Fixpoint segments_of (l : list event) : list segment :=
  match l with
  | [] => []
  | Get _ _ r :: rest =>
      if (status_code r =? 200)%Z
      then map segment_of (get_data (json r)) ++ segments_of rest
      else segments_of rest
  | _ :: rest => segments_of rest
  end.

(** The segments on the first [j] pages of a resource, in order. *)
Fixpoint segments_upto (pages : nat -> list resource) (j : nat) : list segment :=
  match j with
  | O => []
  | S j' => segments_upto pages j' ++ map segment_of (pages j')
  end.

(** ** Further scenarios *)

Definition named (id segment_name : string) : resource :=
  {| res_id := id; res_attributes := {| name := Some segment_name |} |}.

Definition segments_start_url : string := "https://a.klaviyo.com/api/segments/".
Definition segments_page2_url : string :=
  "https://a.klaviyo.com/api/segments/?page%5Bcursor%5D=bmV4dDo6aWQ6OjAy".

(** The pages and page URLs of a collection of three segments. *)
Definition segment_pages_pages (k : nat) : list resource :=
  if (k =? 0)%nat then [named "S1" "No Delta 8"; named "S2" "No THCA"]
  else [named "S3" "Semi Active"].

Definition segment_pages_urls (k : nat) : string :=
  if (k =? 0)%nat then segments_start_url else segments_page2_url.

Definition segment_pages : nat -> string -> option params -> response :=
  fun n _ _ =>
    if (n =? 0)%nat
    then {| status_code := 200;
            json := page_with_next (segment_pages_pages 0) segments_page2_url |}
    else {| status_code := 200; json := last_page (segment_pages_pages 1) |}.

(** A server whose every page is the profile [a] with a next link. *)
Definition endless : nat -> string -> option params -> response :=
  fun _ _ _ =>
    {| status_code := 200; json := page_with_next [profile "a"] page2_url |}.

(** A server that answers 429 twice, then the last page [a], [b]. *)
Definition two_429_then_page : nat -> string -> option params -> response :=
  fun n _ _ =>
    if (n <? 2)%nat then {| status_code := 429; json := no_keys |}
    else {| status_code := 200; json := last_page [profile "a"; profile "b"] |}.

(** One aggregate result. *)
Definition result_for (message_id : string) (sum_value count : number)
  : aggregate_result :=
  {| agg_dimensions := Some (Dim_list [message_id]);
     agg_sum_value := Some (M_list [sum_value]);
     agg_count := Some (M_list [count]) |}.

(** Results in which [M1] comes twice and one result has no message. *)
Definition scenario_results : list aggregate_result :=
  [ result_for "M1" (10 # 1) 1; result_for "" (99 # 1) 9;
    result_for "M2" (5 # 1) 2; result_for "M1" (20 # 1) 3 ].

(** Results of which the second has an empty list of counts. *)
Definition broken_results : list aggregate_result :=
  [ result_for "M1" (10 # 1) 1;
    {| agg_dimensions := Some (Dim_list ["M2"]);
       agg_sum_value := Some (M_list [Num (5 # 1)]);
       agg_count := Some (M_list []) |} ].

(** Results of which the second has a revenue too large for a float. *)
Definition overflow_results : list aggregate_result :=
  [ result_for "M1" (10 # 1) 1; result_for "M2" (inject_Z (10 ^ 400)) 1 ].

(** An aggregate endpoint that answers 429 twice, then one result. *)
Definition aggregates_two_429_then (result : aggregate_result)
  : nat -> string -> aggregate_query -> aggregate_response :=
  fun n _ _ =>
    if (n <? 2)%nat then {| agg_status_code := 429; agg_results := [] |}
    else {| agg_status_code := 200; agg_results := [result] |}.

Definition aggregates_two_429 : nat -> string -> aggregate_query -> aggregate_response :=
  aggregates_two_429_then (result_for "M1" (25 # 2) 7).

(** The same with a revenue of [10**400], and with a count of [1e400],
    which is decoded as an infinity. *)
Definition aggregates_overflow : nat -> string -> aggregate_query -> aggregate_response :=
  aggregates_two_429_then (result_for "M1" (inject_Z (10 ^ 400)) 7).

Definition aggregates_inf_count : nat -> string -> aggregate_query -> aggregate_response :=
  aggregates_two_429_then (result_for "M1" (25 # 2) (Inf false)).

(** An aggregate endpoint that is down. *)
Definition grouped_down : nat -> string -> grouped_query -> aggregate_response :=
  fun _ _ _ => {| agg_status_code := 500; agg_results := [] |}.

Definition metric_named (id metric_name : string) : metric :=
  {| m_id := id; m_attributes := Some {| name := Some metric_name |} |}.

Definition metrics_start_url : string := "https://a.klaviyo.com/api/metrics/".
Definition metrics_page2_url : string :=
  "https://a.klaviyo.com/api/metrics/?page%5Bcursor%5D=bmV4dDo6aWQ6OjAy".

Definition metrics_urls (k : nat) : option string :=
  if (k =? 0)%nat then Some metrics_start_url
  else if (k =? 1)%nat then Some metrics_page2_url
  else None.

(** Two pages of metrics; "Placed Order" is on the second. *)
Definition metrics_two_pages : nat -> string -> metrics_response :=
  fun n _ =>
    if (n =? 0)%nat
    then {| m_status := 200;
            m_json := {| m_data := Some [metric_named "OE" "Opened Email";
                                         {| m_id := "XX"; m_attributes := None |}];
                         m_links := Some {| next := Some metrics_page2_url |} |} |}
    else {| m_status := 200;
            m_json := {| m_data := Some [metric_named "CE" "Clicked Email";
                                         metric_named "PO" "Placed Order";
                                         metric_named "P2" "Placed Order (old)"];
                         m_links := Some {| next := None |} |} |}.

(** The same first page, then a failure. *)
Definition metrics_then_429 : nat -> string -> metrics_response :=
  fun n u =>
    if (n =? 0)%nat then metrics_two_pages 0 u
    else {| m_status := 429; m_json := {| m_data := None; m_links := None |} |}.

(** One page of metrics, none of them "Placed Order". *)
Definition metrics_without : nat -> string -> metrics_response :=
  fun _ _ =>
    {| m_status := 200;
       m_json := {| m_data := Some [metric_named "OE" "Opened Email"];
                    m_links := None |} |}.

(** A lookup endpoint that knows the first campaign and is rate limited
    afterwards. *)
Definition messages_then_429 : nat -> string -> messages_response :=
  fun n _ =>
    if (n =? 0)%nat
    then {| msg_status := 200; msg_data := Some [{| msg_id := Some "M1" |}] |}
    else {| msg_status := 429; msg_data := None |}.

Definition scenario_rows : list csv_row :=
  [ {| csv_campaign_id := "C1"; csv_campaign_name := "Spring";
       csv_subject := "Hi"; csv_send_time := "2025-03-01" |};
    {| csv_campaign_id := "C2"; csv_campaign_name := "Summer";
       csv_subject := "Hey"; csv_send_time := "2025-06-01" |} ].

Definition export_start : export_world := {| calls := 0; trace := [] |}.

(** A count endpoint whose ["meta"] has both totals. *)
Definition count_both : nat -> string -> option params -> count_response :=
  fun _ _ _ =>
    {| count_status := 200;
       count_meta := Some {| meta_total := Some 1200%Z;
                             meta_page := Some {| page_total := Some 100%Z |} |} |}.

Definition count_down : nat -> string -> option params -> count_response :=
  fun _ _ _ => {| count_status := 429; count_meta := None |}.

(** Three sets for the overlap report, and a cut-down fetch of them. *)
Definition three_sets : gmap string (gset string) :=
  {[ "No Delta 8" := {[ "1"; "2"; "3"; "4" ]};
     "No THCA" := {[ "3"; "4"; "5"; "6" ]};
     "Semi Active" := {[ "4"; "6"; "7" ]} ]}.

Definition three_sets_cut : gmap string (gset string) :=
  {[ "No Delta 8" := {[ "1"; "2"; "3"; "4" ]};
     "No THCA" := {[ "5"; "6" ]} ]}.

(** * Properties *)

(** ** Strings *)

Lemma append_nil_l (s : string) : "" +:+ s = s.
Proof. reflexivity. Qed.

Lemma append_cons (c : ascii) (s t : string) :
  String c s +:+ t = String c (s +:+ t).
Proof. reflexivity. Qed.

Lemma append_empty_r (s : string) : s +:+ "" = s.
Proof.
  induction s as [|c s IH]; [reflexivity | now rewrite append_cons, IH].
Qed.

Lemma prefix_spec (p s : string) :
  String.prefix p s = true <-> exists rest, s = p +:+ rest.
Proof.
  revert s. induction p as [|c p IH]; intros s.
  - split; [intros _; exists s; reflexivity | intros _; now destruct s].
  - destruct s as [|d s]; simpl.
    + split; [discriminate | intros [rest H]; discriminate].
    + destruct (Ascii.ascii_dec c d) as [->|Hne].
      * rewrite IH. split; intros [rest H]; exists rest.
        -- now rewrite append_cons, H.
        -- rewrite append_cons in H. now injection H.
      * split; [discriminate |].
        intros [rest H]. rewrite append_cons in H. injection H. congruence.
Qed.

Lemma str_in_spec (needle hay : string) :
  str_in needle hay = true <->
  exists before after, hay = before +:+ needle +:+ after.
Proof.
  induction hay as [|c hay IH]; cbn [str_in].
  - rewrite orb_false_r, prefix_spec. split.
    + intros [rest H]. exists "", rest. exact H.
    + intros [before [after H]]. destruct before; [|discriminate].
      exists after. exact H.
  - rewrite orb_true_iff, prefix_spec, IH. split.
    + intros [[rest H] | [before [after H]]].
      * exists "", rest. exact H.
      * exists (String c before), after. now rewrite append_cons, H.
    + intros [before [after H]]. destruct before as [|d before].
      * left. exists after. exact H.
      * right. rewrite append_cons in H. injection H as _ H. eauto.
Qed.

Lemma str_in_refl (s : string) : str_in s s = true.
Proof.
  apply str_in_spec. exists "", "".
  now rewrite append_nil_l, append_empty_r.
Qed.

(** ** [find_segment] *)

Section FindSegmentProperties.

Variable lower : string -> string.

Lemma exact_match_iff search s :
  exact_match lower search s = true <-> name_equals lower search s.
Proof. unfold exact_match. apply String.eqb_eq. Qed.

Lemma partial_match_iff search s :
  partial_match lower search s = true <-> name_contains lower search s.
Proof. unfold partial_match. apply str_in_spec. Qed.

Lemma name_equals_contains search s :
  name_equals lower search s -> name_contains lower search s.
Proof.
  intros H. exists "", "". rewrite H.
  now rewrite append_nil_l, append_empty_r.
Qed.

Lemma first_exact_None search segments :
  first_exact lower search segments = None <->
  forall s, s ∈ segments -> ~ name_equals lower search s.
Proof.
  induction segments as [|s0 rest IH]; simpl.
  - split; [intros _ s Hs; inversion Hs | reflexivity].
  - destruct (exact_match lower search s0) eqn:E.
    + split; [discriminate |]. intros H. exfalso.
      apply (H s0); [left | now apply exact_match_iff].
    + rewrite IH. split.
      * intros H s Hs. inversion Hs; subst; [|now apply H].
        rewrite <- exact_match_iff. congruence.
      * intros H s Hs. apply H. now right.
Qed.

(** The first loop returns the first exact match in list order. *)
Lemma first_exact_Some search segments s :
  first_exact lower search segments = Some s <->
  exists l1 l2, segments = l1 ++ s :: l2 /\ name_equals lower search s /\
                forall t, t ∈ l1 -> ~ name_equals lower search t.
Proof.
  induction segments as [|s0 rest IH]; simpl.
  - split; [discriminate |]. intros (l1 & l2 & H & _). now destruct l1.
  - destruct (exact_match lower search s0) eqn:E.
    + split.
      * intros [= <-]. exists [], rest. split; [reflexivity |].
        split; [now apply exact_match_iff | intros t Ht; inversion Ht].
      * intros (l1 & l2 & H & Hs & Hl1). destruct l1 as [|t l1].
        -- simpl in H. congruence.
        -- simpl in H. injection H as <- _. exfalso.
           apply (Hl1 s0); [left |]. now apply exact_match_iff.
    + rewrite IH. split.
      * intros (l1 & l2 & -> & Hs & Hl1). exists (s0 :: l1), l2.
        split; [reflexivity |]. split; [exact Hs |].
        intros t Ht. inversion Ht; subst; [|now apply Hl1].
        rewrite <- exact_match_iff. congruence.
      * intros (l1 & l2 & H & Hs & Hl1). destruct l1 as [|t l1].
        -- simpl in H. injection H as <- _.
           apply exact_match_iff in Hs. congruence.
        -- simpl in H. injection H as <- ->. exists l1, l2.
           split; [reflexivity |]. split; [exact Hs |].
           intros t' Ht'. apply Hl1. now right.
Qed.

Lemma filter_partial_nil search (l : list segment) :
  (forall t, t ∈ l -> ~ name_contains lower search t) ->
  List.filter (partial_match lower search) l = [].
Proof.
  induction l as [|t l IH]; intros H; simpl; [reflexivity |].
  destruct (partial_match lower search t) eqn:E.
  - exfalso. apply (H t); [left | now apply partial_match_iff].
  - apply IH. intros t' Ht'. apply H. now right.
Qed.

Lemma filter_partial_middle search (l : list segment) i s :
  l !! i = Some s -> name_contains lower search s ->
  List.filter (partial_match lower search) l =
  List.filter (partial_match lower search) (take i l) ++
  s :: List.filter (partial_match lower search) (drop (S i) l).
Proof.
  intros Hi Hs.
  rewrite <- (take_drop_middle l i s Hi) at 1.
  rewrite List.filter_app. simpl.
  apply partial_match_iff in Hs. now rewrite Hs.
Qed.

Lemma filter_partial_elem search (l : list segment) t :
  t ∈ l -> name_contains lower search t ->
  List.filter (partial_match lower search) l <> [].
Proof.
  intros Ht Hc E.
  assert (In t (List.filter (partial_match lower search) l)) as H.
  { apply List.filter_In. split; [now apply list_elem_of_In |].
    now apply partial_match_iff. }
  rewrite E in H. exact H.
Qed.

Lemma find_segment_elem segments search s :
  find_segment lower segments search = Some s ->
  s ∈ segments /\ name_contains lower search s.
Proof.
  unfold find_segment.
  destruct (first_exact lower search segments) as [s'|] eqn:E.
  - intros [= <-]. apply first_exact_Some in E as (l1 & l2 & -> & Hs & _).
    split; [|now apply name_equals_contains].
    apply elem_of_app. right. left.
  - destruct (List.filter (partial_match lower search) segments)
      as [|m [|m' ms]] eqn:F; try discriminate.
    intros [= <-].
    assert (In m (List.filter (partial_match lower search) segments)) as H
      by (rewrite F; now left).
    apply List.filter_In in H as [H1 H2].
    split; [now apply list_elem_of_In | now apply partial_match_iff].
Qed.

(** C2.  [find_segment] returns an exact case-insensitive match whenever
    one exists; failing that, the single segment whose name contains the
    search string; and [None] when two or more segments match only by
    substring or when nothing matches.  Whatever it returns is a segment
    of the list whose name contains the search string. *)
Theorem find_segment_spec (segments : list segment) (search : string) :
  ((exists s, s ∈ segments /\ name_equals lower search s) ->
   exists s, find_segment lower segments search = Some s /\
             s ∈ segments /\ name_equals lower search s) /\
  ((forall s, s ∈ segments -> ~ name_equals lower search s) ->
   forall l1 s l2,
     segments = l1 ++ s :: l2 ->
     name_contains lower search s ->
     (forall t, t ∈ l1 ++ l2 -> ~ name_contains lower search t) ->
     find_segment lower segments search = Some s) /\
  ((forall s, s ∈ segments -> ~ name_equals lower search s) ->
   forall i j s t,
     i < j -> segments !! i = Some s -> segments !! j = Some t ->
     name_contains lower search s -> name_contains lower search t ->
     find_segment lower segments search = None) /\
  ((forall s, s ∈ segments -> ~ name_contains lower search s) ->
   find_segment lower segments search = None) /\
  (forall s, find_segment lower segments search = Some s ->
             s ∈ segments /\ name_contains lower search s).
Proof.
  split; [|split; [|split; [|split]]].
  - intros (s & Hs & He).
    destruct (first_exact lower search segments) as [s'|] eqn:E.
    + exists s'. unfold find_segment. rewrite E.
      apply first_exact_Some in E as (l1 & l2 & -> & Hs' & _).
      repeat split; [|exact Hs']. apply elem_of_app. right. left.
    + exfalso. exact (proj1 (first_exact_None _ _) E s Hs He).
  - intros Hno l1 s l2 -> Hc Hother.
    unfold find_segment.
    rewrite (proj2 (first_exact_None _ _) Hno).
    rewrite List.filter_app. simpl.
    apply partial_match_iff in Hc. rewrite Hc.
    rewrite !filter_partial_nil; [reflexivity | |];
      intros t Ht; apply Hother, elem_of_app; auto.
  - intros Hno i j s t Hij Hi Hj Hs Ht.
    unfold find_segment.
    rewrite (proj2 (first_exact_None _ _) Hno).
    rewrite (filter_partial_middle search segments i s Hi Hs).
    assert (t ∈ drop (S i) segments) as Hin.
    { apply list_elem_of_lookup. exists (j - S i).
      rewrite lookup_drop. rewrite <- Hj. f_equal. lia. }
    pose proof (filter_partial_elem search _ t Hin Ht) as Hne.
    destruct (List.filter (partial_match lower search) (take i segments))
      as [|a [|b l]]; simpl;
      destruct (List.filter (partial_match lower search) (drop (S i) segments));
      try reflexivity; congruence.
  - intros Hno. unfold find_segment.
    rewrite (proj2 (first_exact_None _ _)).
    + now rewrite filter_partial_nil.
    + intros s Hs He. apply (Hno s Hs). now apply name_equals_contains.
  - intros s. apply find_segment_elem.
Qed.

(** C10.  When two or more segments match the search string exactly
    (case-insensitively), [find_segment] returns the first of them in
    list order; an exact-match tie is never reported as not found. *)
Theorem find_segment_first_exact (segments : list segment) (search : string)
    (i j : nat) (si sj : segment) :
  i < j ->
  segments !! i = Some si -> segments !! j = Some sj ->
  name_equals lower search si -> name_equals lower search sj ->
  exists k s,
    segments !! k = Some s /\ name_equals lower search s /\
    (forall k' s', k' < k -> segments !! k' = Some s' ->
                   ~ name_equals lower search s') /\
    find_segment lower segments search = Some s.
Proof.
  intros _ Hi _ Hsi _.
  destruct (first_exact lower search segments) as [s|] eqn:E.
  - pose proof E as E'.
    apply first_exact_Some in E' as (l1 & l2 & -> & Hs & Hl1).
    exists (length l1), s. repeat split.
    + now rewrite list_lookup_middle.
    + exact Hs.
    + intros k' s' Hk Hk'. apply Hl1.
      rewrite lookup_app_l in Hk' by exact Hk.
      apply list_elem_of_lookup. eauto.
    + unfold find_segment. now rewrite E.
  - exfalso. apply (proj1 (first_exact_None _ _) E si); [|exact Hsi].
    apply list_elem_of_lookup. eauto.
Qed.

End FindSegmentProperties.

(** Membership in a concrete list, one element at a time. *)
Ltac each_elem H :=
  repeat (apply elem_of_cons in H as [-> | H]);
  try (apply elem_of_nil in H; contradiction).

Lemma find_segment_spec_witness :
  find_segment ascii_lower scenario_segments "delta 8"
    = Some (Segment "S1" "No Delta 8") /\
  find_segment ascii_lower scenario_segments "no" = None /\
  find_segment ascii_lower scenario_segments "NO thca"
    = Some (Segment "S2" "No THCA") /\
  find_segment ascii_lower scenario_segments "Semi Active" = None.
Proof.
  split; [|split; [|split]].
  - apply (proj1 (proj2 (find_segment_spec ascii_lower scenario_segments
                           "delta 8"))) with (l1 := []) (l2 := [Segment "S2" "No THCA"]).
    + intros s Hs He. each_elem Hs; vm_compute in He; discriminate.
    + reflexivity.
    + apply partial_match_iff. reflexivity.
    + intros t Ht Hc. apply partial_match_iff in Hc.
      each_elem Ht. vm_compute in Hc. discriminate.
  - apply (proj1 (proj2 (proj2 (find_segment_spec ascii_lower scenario_segments
                                  "no")))) with (i := 0) (j := 1)
        (s := Segment "S1" "No Delta 8") (t := Segment "S2" "No THCA").
    + intros s Hs He. each_elem Hs; vm_compute in He; discriminate.
    + lia.
    + reflexivity.
    + reflexivity.
    + apply partial_match_iff. reflexivity.
    + apply partial_match_iff. reflexivity.
  - destruct (proj1 (find_segment_spec ascii_lower scenario_segments "NO thca"))
      as (s & Hs & Hin & He).
    + exists (Segment "S2" "No THCA"). split; [|reflexivity].
      apply elem_of_cons. right. left.
    + rewrite Hs. f_equal.
      each_elem Hin; [vm_compute in He; discriminate | reflexivity].
  - apply (proj1 (proj2 (proj2 (proj2 (find_segment_spec ascii_lower
                                          scenario_segments "Semi Active"))))).
    intros s Hs Hc. apply partial_match_iff in Hc.
    each_elem Hs; vm_compute in Hc; discriminate.
Defined.

Lemma find_segment_first_exact_witness :
  exists k s,
    tie_segments !! k = Some s /\
    name_equals ascii_lower "semi active" s /\
    (forall k' s', k' < k -> tie_segments !! k' = Some s' ->
                   ~ name_equals ascii_lower "semi active" s') /\
    find_segment ascii_lower tie_segments "semi active" = Some s.
Proof.
  apply (find_segment_first_exact ascii_lower tie_segments "semi active" 1 2
           (Segment "S1" "Semi Active") (Segment "S2" "SEMI ACTIVE")).
  - lia.
  - reflexivity.
  - reflexivity.
  - reflexivity.
  - reflexivity.
Defined.

Example find_segment_tie :
  find_segment ascii_lower tie_segments "semi active"
  = Some (Segment "S1" "Semi Active").
Proof. reflexivity. Qed.

(** ** The fetch loops *)

Lemma gets_of_app (l1 l2 : list event) :
  gets_of (l1 ++ l2) = gets_of l1 ++ gets_of l2.
Proof.
  induction l1 as [|e l1 IH]; [reflexivity |].
  destruct e; simpl; now rewrite IH.
Qed.

Lemma sleeps_of_app (l1 l2 : list event) :
  sleeps_of (l1 ++ l2) = sleeps_of l1 ++ sleeps_of l2.
Proof.
  induction l1 as [|e l1 IH]; [reflexivity |].
  destruct e; simpl; now rewrite IH.
Qed.

Lemma posts_of_app (l1 l2 : list event) :
  posts_of (l1 ++ l2) = posts_of l1 ++ posts_of l2.
Proof.
  induction l1 as [|e l1 IH]; [reflexivity |].
  destruct e; simpl; now rewrite IH.
Qed.

Lemma ids_of_app (l1 l2 : list event) :
  ids_of (l1 ++ l2) = ids_of l1 ++ ids_of l2.
Proof.
  induction l1 as [|e l1 IH]; [reflexivity |].
  destruct e; simpl; rewrite IH; try reflexivity.
  destruct (status_code r =? 200)%Z; [now rewrite app_assoc | reflexivity].
Qed.

(** *** Inserting into the accumulator *)

Lemma set_add_present (x : string) (s : gset string) :
  x ∈ s -> set_add x s = s.
Proof. unfold set_add. set_solver. Qed.

Lemma set_add_fresh (x : string) (s : gset string) :
  x ∉ s -> size (set_add x s) = S (size s).
Proof.
  intros H. unfold set_add.
  rewrite size_union by set_solver. now rewrite size_singleton.
Qed.

Lemma add_ids_list_to_set (xs : list string) (s : gset string) :
  add_ids xs s = list_to_set xs ∪ s.
Proof.
  unfold add_ids. revert s.
  induction xs as [|x xs IH]; intros s; simpl.
  - set_solver.
  - rewrite IH. unfold set_add. set_solver.
Qed.

Lemma elem_of_add_ids (xs : list string) (s : gset string) x :
  x ∈ add_ids xs s <-> x ∈ xs \/ x ∈ s.
Proof. rewrite add_ids_list_to_set. set_solver. Qed.

Lemma size_add_ids (xs : list string) :
  size (add_ids xs ∅) = length (remove_dups xs).
Proof.
  rewrite add_ids_list_to_set, union_empty_r_L.
  rewrite <- (size_list_to_set (C := gset string) (remove_dups xs))
    by apply NoDup_remove_dups.
  f_equal. apply set_eq. intros x.
  now rewrite !elem_of_list_to_set, elem_of_remove_dups.
Qed.

Section ApiProperties.

Variable BASE_URL : string.
Variable RATE_LIMIT_DELAY : Q.
Variable server : nat -> string -> option params -> response.

(** The body of one iteration of each loop. *)
Lemma profiles_loop_unfold fuel max_profiles u profile_ids w :
  profiles_loop RATE_LIMIT_DELAY server (S fuel) max_profiles (Some u) profile_ids w =
  if negb (String.eqb u "")
     && (Z.of_nat (size profile_ids) <? max_profiles)%Z then
    let (response, w1) := http_get server u (params_for u) w in
    if (status_code response =? 429)%Z then
      profiles_loop RATE_LIMIT_DELAY server fuel max_profiles (Some u) profile_ids
        (sleep 30 (print Rate_limited w1))
    else if negb (status_code response =? 200)%Z then
      Some (profile_ids, print (Profiles_error (status_code response)) w1)
    else
      let body := json response in
      let profile_ids' := add_profiles (get_data body) profile_ids in
      let n := size profile_ids' in
      let w2 :=
        if (n mod 1000 =? 0)%nat && (0 <? n)%nat
        then print (Progress n) w1 else w1 in
      let url' := get_next body in
      let w3 := if truthy url' then sleep RATE_LIMIT_DELAY w2 else w2 in
      profiles_loop RATE_LIMIT_DELAY server fuel max_profiles url' profile_ids' w3
  else Some (profile_ids, w).
Proof. reflexivity. Qed.

Lemma segments_loop_unfold fuel u segments w :
  segments_loop server (S fuel) (Some u) segments w =
  if negb (String.eqb u "") then
    let (response, w1) := http_get server u None w in
    if negb (status_code response =? 200)%Z then
      Some (segments, print (Error_status (status_code response)) w1)
    else
      let body := json response in
      let segments' := segments ++ map segment_of (get_data body) in
      let url' := get_next body in
      let w2 := if truthy url' then sleep (3 # 10) w1 else w1 in
      segments_loop server fuel url' segments' w2
  else Some (segments, w).
Proof. reflexivity. Qed.

Lemma get_segment_profile_ids_unfold fuel segment_id segment_name max_profiles w :
  get_segment_profile_ids BASE_URL RATE_LIMIT_DELAY server fuel
    segment_id segment_name max_profiles w =
  match profiles_loop RATE_LIMIT_DELAY server fuel max_profiles
          (Some (profiles_url BASE_URL segment_id)) ∅
          (print (Fetching_profiles segment_name) w) with
  | Some (profile_ids, w') =>
      Some (profile_ids, print (Total (size profile_ids)) w')
  | None => None
  end.
Proof. reflexivity. Qed.

Local Abbreviation profiles_loop := (profiles_loop RATE_LIMIT_DELAY server).
Local Abbreviation get_segment_profile_ids :=
  (get_segment_profile_ids BASE_URL RATE_LIMIT_DELAY server).
Local Abbreviation segments_loop := (segments_loop server).
Local Abbreviation get_all_segments := (get_all_segments BASE_URL server).

Lemma profiles_loop_stop fuel max_profiles url profile_ids w :
  ~ running max_profiles url profile_ids ->
  profiles_loop fuel max_profiles url profile_ids w = Some (profile_ids, w).
Proof.
  unfold running. intros H.
  destruct url as [u|]; [|now destruct fuel].
  destruct fuel; simpl in *;
    destruct (negb (String.eqb u "")) eqn:E1; simpl; try reflexivity;
    destruct (Z.ltb_spec (Z.of_nat (size profile_ids)) max_profiles);
    try reflexivity; exfalso; apply H; split; auto.
Qed.

Lemma running_test max_profiles u profile_ids :
  running max_profiles (Some u) profile_ids ->
  negb (String.eqb u "")
  && (Z.of_nat (size profile_ids) <? max_profiles)%Z = true.
Proof.
  intros [Hu Hlt]. simpl in Hu. rewrite Hu. simpl.
  now apply Z.ltb_lt.
Qed.

(** With the loop test true and no fuel left the loop has not finished. *)
Lemma profiles_loop_out_of_fuel max_profiles u profile_ids w :
  running max_profiles (Some u) profile_ids ->
  profiles_loop 0 max_profiles (Some u) profile_ids w = None.
Proof. intros H. simpl. now rewrite (running_test _ _ _ H). Qed.

(** One iteration that meets a 429: the same URL and the same
    accumulator, one more request, one line printed, 30 seconds slept. *)
Lemma profiles_loop_429 fuel max_profiles u profile_ids w :
  running max_profiles (Some u) profile_ids ->
  status_code (server (requests w) u (params_for u)) = 429%Z ->
  profiles_loop (S fuel) max_profiles (Some u) profile_ids w =
  profiles_loop fuel max_profiles (Some u) profile_ids
    {| requests := S (requests w);
       log := log w ++ retry_events u (server (requests w) u (params_for u)) |}.
Proof.
  intros Hrun H429. rewrite profiles_loop_unfold.
  rewrite (running_test _ _ _ Hrun). unfold http_get.
  rewrite H429. cbn [Z.eqb Pos.eqb].
  unfold sleep, print, retry_events. cbn [requests log].
  now rewrite <- !app_assoc.
Qed.

(** One iteration that meets a status other than 429 and 200: the loop
    ends at once with the accumulator as it was. *)
Lemma profiles_loop_error fuel max_profiles u profile_ids w :
  running max_profiles (Some u) profile_ids ->
  let r := server (requests w) u (params_for u) in
  status_code r <> 429%Z -> status_code r <> 200%Z ->
  profiles_loop (S fuel) max_profiles (Some u) profile_ids w =
  Some (profile_ids,
        {| requests := S (requests w);
           log := log w ++ [Get u (params_for u) r;
                            Print (Profiles_error (status_code r))] |}).
Proof.
  intros Hrun r H429 H200. rewrite profiles_loop_unfold.
  rewrite (running_test _ _ _ Hrun). unfold http_get. fold r.
  apply Z.eqb_neq in H429, H200. rewrite H429, H200. cbn [negb].
  unfold print. cbn [requests log]. now rewrite <- !app_assoc.
Qed.

(** One iteration that meets a 200: the page's identifiers are added,
    the URL becomes the page's next link, and the loop goes on.  The
    effects after the request are at most a progress line and, when a
    next link came back, one sleep of [RATE_LIMIT_DELAY]. *)
Lemma profiles_loop_ok fuel max_profiles u profile_ids w :
  running max_profiles (Some u) profile_ids ->
  let r := server (requests w) u (params_for u) in
  status_code r = 200%Z ->
  exists evs,
    gets_of evs = [] /\
    sleeps_of evs
      = (if truthy (get_next (json r)) then [RATE_LIMIT_DELAY] else []) /\
    profiles_loop (S fuel) max_profiles (Some u) profile_ids w =
    profiles_loop fuel max_profiles (get_next (json r))
      (add_profiles (get_data (json r)) profile_ids)
      {| requests := S (requests w);
         log := log w ++ Get u (params_for u) r :: evs |}.
Proof.
  intros Hrun r H200. rewrite profiles_loop_unfold.
  rewrite (running_test _ _ _ Hrun). unfold http_get. fold r.
  rewrite H200. cbn [Z.eqb Pos.eqb negb].
  set (ids' := add_profiles (get_data (json r)) profile_ids).
  destruct ((size ids' mod 1000 =? 0)%nat && (0 <? size ids')%nat);
    destruct (truthy (get_next (json r))) eqn:Hnext;
    unfold sleep, print; cbn [requests log];
    eexists; (split; [|split; [|rewrite <- ?app_assoc; simpl; reflexivity]]);
    reflexivity.
Qed.

Lemma sleeps_of_retries_log u n k :
  sleeps_of (retries_log server u n k) = repeat 30%Q k.
Proof.
  revert n. induction k as [|k IH]; intros n; simpl; [reflexivity |].
  now rewrite IH.
Qed.

Lemma gets_of_retries_log u n k :
  gets_of (retries_log server u n k)
  = map (fun i => (u, params_for u, server i u (params_for u))) (seq n k).
Proof.
  revert n. induction k as [|k IH]; intros n; simpl; [reflexivity |].
  now rewrite IH.
Qed.

(** [k] rate-limited answers in a row cost [k] iterations and leave the
    loop where it was: same URL, same accumulator. *)
Lemma profiles_loop_retries k fuel max_profiles u profile_ids w :
  running max_profiles (Some u) profile_ids ->
  (forall i, i < k ->
     status_code (server (requests w + i) u (params_for u)) = 429%Z) ->
  profiles_loop (k + fuel) max_profiles (Some u) profile_ids w =
  profiles_loop fuel max_profiles (Some u) profile_ids
    {| requests := requests w + k;
       log := log w ++ retries_log server u (requests w) k |}.
Proof.
  intros Hrun. revert w. induction k as [|k IH]; intros w H429.
  - simpl. rewrite Nat.add_0_r, app_nil_r. now destruct w.
  - change (S k + fuel) with (S (k + fuel)).
    rewrite profiles_loop_429; [|exact Hrun|].
    + rewrite IH.
      * cbn [requests log retries_log].
        rewrite <- app_assoc. do 2 f_equal. lia.
      * intros i Hi. cbn [requests].
        replace (S (requests w) + i) with (requests w + S i) by lia.
        apply H429. lia.
    + specialize (H429 0). rewrite Nat.add_0_r in H429. apply H429. lia.
Qed.

(** Against a server that keeps answering 429 the loop never ends. *)
Lemma profiles_loop_diverges fuel max_profiles u profile_ids w :
  running max_profiles (Some u) profile_ids ->
  (forall n, requests w <= n ->
     status_code (server n u (params_for u)) = 429%Z) ->
  profiles_loop fuel max_profiles (Some u) profile_ids w = None.
Proof.
  intros Hrun. revert w. induction fuel as [|fuel IH]; intros w H429.
  - now apply profiles_loop_out_of_fuel.
  - rewrite profiles_loop_429; [|exact Hrun|now apply H429].
    apply IH. intros n Hn. apply H429. cbn [requests] in Hn. lia.
Qed.

(** *** [get_all_segments] *)

Lemma segments_loop_error fuel u segments w :
  truthy (Some u) = true ->
  let r := server (requests w) u None in
  status_code r <> 200%Z ->
  segments_loop (S fuel) (Some u) segments w =
  Some (segments,
        {| requests := S (requests w);
           log := log w ++ [Get u None r;
                            Print (Error_status (status_code r))] |}).
Proof.
  intros Hu r H200. rewrite segments_loop_unfold.
  simpl in Hu. rewrite Hu. unfold http_get. fold r.
  apply Z.eqb_neq in H200. rewrite H200. cbn [negb].
  unfold print. cbn [requests log]. now rewrite <- !app_assoc.
Qed.

Lemma segments_loop_ok fuel u segments w :
  truthy (Some u) = true ->
  let r := server (requests w) u None in
  status_code r = 200%Z ->
  segments_loop (S fuel) (Some u) segments w =
  segments_loop fuel (get_next (json r))
    (segments ++ map segment_of (get_data (json r)))
    {| requests := S (requests w);
       log := log w ++ Get u None r ::
              (if truthy (get_next (json r)) then [Sleep (3 # 10)] else []) |}.
Proof.
  intros Hu r H200. rewrite segments_loop_unfold.
  simpl in Hu. rewrite Hu. unfold http_get. fold r.
  rewrite H200. cbn [Z.eqb Pos.eqb negb].
  destruct (truthy (get_next (json r))); unfold sleep; cbn [requests log];
    now rewrite <- ?app_assoc.
Qed.

Lemma segments_loop_stop fuel url segments w :
  truthy url = false ->
  segments_loop fuel url segments w = Some (segments, w).
Proof.
  intros H. destruct url as [u|]; [|now destruct fuel].
  simpl in H. destruct fuel; simpl; now rewrite H.
Qed.

(** C6 (amended).  When a page request comes back with a status other
    than 200 (and, in the profile loop, other than 429) the loop makes
    no further request and returns the collection accumulated so far,
    unchanged.  The failure leaves one trace only: the printed line
    with the status code.  [get_all_segments] treats a 429 like any
    other failure. *)
Theorem fetch_failure_returns_partial :
  (forall fuel max_profiles u profile_ids w,
     running max_profiles (Some u) profile_ids ->
     let r := server (requests w) u (params_for u) in
     status_code r <> 429%Z -> status_code r <> 200%Z ->
     profiles_loop (S fuel) max_profiles (Some u) profile_ids w =
     Some (profile_ids,
           {| requests := S (requests w);
              log := log w ++ [Get u (params_for u) r;
                               Print (Profiles_error (status_code r))] |})) /\
  (forall fuel u segments w,
     truthy (Some u) = true ->
     let r := server (requests w) u None in
     status_code r <> 200%Z ->
     segments_loop (S fuel) (Some u) segments w =
     Some (segments,
           {| requests := S (requests w);
              log := log w ++ [Get u None r;
                               Print (Error_status (status_code r))] |})).
Proof.
  split.
  - intros. now apply profiles_loop_error.
  - intros. now apply segments_loop_error.
Qed.

(** *** Pages with missing keys *)

Lemma profiles_url_truthy segment_id :
  truthy (Some (profiles_url BASE_URL segment_id)) = true.
Proof.
  unfold profiles_url, truthy.
  destruct BASE_URL as [|c s]; reflexivity.
Qed.

Lemma segments_url_truthy : truthy (Some (BASE_URL +:+ "/segments/")) = true.
Proof. unfold truthy. destruct BASE_URL as [|c s]; reflexivity. Qed.

Lemma not_running_None max_profiles profile_ids :
  ~ running max_profiles None profile_ids.
Proof. intros [H _]. discriminate. Qed.

(** A 200 page without a next link ends the loop. *)
Lemma profiles_loop_last_page fuel max_profiles u profile_ids w :
  running max_profiles (Some u) profile_ids ->
  let r := server (requests w) u (params_for u) in
  status_code r = 200%Z ->
  get_next (json r) = None ->
  exists evs,
    gets_of evs = [] /\ sleeps_of evs = [] /\
    profiles_loop (S fuel) max_profiles (Some u) profile_ids w =
    Some (add_profiles (get_data (json r)) profile_ids,
          {| requests := S (requests w);
             log := log w ++ Get u (params_for u) r :: evs |}).
Proof.
  intros Hrun r H200 Hnext.
  destruct (profiles_loop_ok fuel _ _ _ w Hrun H200) as (evs & Hg & Hs & E).
  fold r in Hs, E. rewrite Hnext in Hs, E. simpl in Hs.
  exists evs. split; [exact Hg |]. split; [exact Hs |].
  rewrite E. apply profiles_loop_stop, not_running_None.
Qed.


(** *** Whole runs *)

Lemma ids_of_no_gets (evs : list event) : gets_of evs = [] -> ids_of evs = [].
Proof.
  induction evs as [|e evs IH]; [reflexivity |].
  destruct e; simpl; auto; discriminate.
Qed.

Lemma add_profiles_add_ids profiles (s : gset string) :
  add_profiles profiles s = add_ids (map res_id profiles) s.
Proof.
  unfold add_profiles, add_ids. revert s.
  induction profiles as [|p l IH]; intros s; simpl; [reflexivity | apply IH].
Qed.

Lemma add_ids_app xs ys (s : gset string) :
  add_ids (xs ++ ys) s = add_ids ys (add_ids xs s).
Proof. unfold add_ids. apply foldl_app. Qed.

(** Every finished run of the profile loop, read off its log: the
    requests form a chain from the URL the loop was entered with, and
    the accumulator is the old one with the identifiers of the 200
    pages inserted in order. *)
Lemma profiles_loop_run fuel :
  forall max_profiles url profile_ids w profile_ids' w',
    profiles_loop fuel max_profiles url profile_ids w = Some (profile_ids', w') ->
    exists new,
      log w' = log w ++ new /\
      requests w' = requests w + length (gets_of new) /\
      request_chain url (gets_of new) /\
      profile_ids' = add_ids (ids_of new) profile_ids.
Proof.
  assert (Hstop : forall (profile_ids profile_ids' : gset string) w w' url,
             Some (profile_ids, w) = Some (profile_ids', w') ->
             exists new,
               log w' = log w ++ new /\
               requests w' = requests w + length (gets_of new) /\
               request_chain url (gets_of new) /\
               profile_ids' = add_ids (ids_of new) profile_ids).
  { intros ids ids' w w' url [= <- <-]. exists []. simpl.
    rewrite app_nil_r, Nat.add_0_r. auto. }
  induction fuel as [|fuel IH]; intros max_profiles url ids w ids' w' H.
  - destruct url as [u|]; simpl in H; [|now apply Hstop].
    destruct (negb (String.eqb u "") && _); [discriminate | now apply Hstop].
  - destruct url as [u|]; [|now apply Hstop].
    destruct (negb (String.eqb u "")
              && (Z.of_nat (size ids) <? max_profiles)%Z) eqn:T.
    2:{ rewrite profiles_loop_unfold, T in H. now apply Hstop. }
    assert (running max_profiles (Some u) ids) as Hrun.
    { apply andb_true_iff in T as [T1 T2]. split; [exact T1 |].
      now apply Z.ltb_lt. }
    set (r := server (requests w) u (params_for u)).
    destruct (Z.eq_dec (status_code r) 429%Z) as [H429 | H429];
      [|destruct (Z.eq_dec (status_code r) 200%Z) as [H200 | H200]].
    + rewrite profiles_loop_429 in H by assumption. fold r in H.
      apply IH in H as (new & Hlog & Hreq & Hchain & Hids).
      cbn [log requests] in Hlog, Hreq.
      exists (retry_events u r ++ new).
      rewrite gets_of_app, ids_of_app. simpl. rewrite H429. simpl.
      rewrite Hlog, Hreq, <- app_assoc.
      unfold next_request. rewrite H429. simpl.
      repeat split; auto; lia.
    + destruct (profiles_loop_ok fuel _ _ _ w Hrun H200) as (evs & Hg & _ & E).
      fold r in E. rewrite E in H.
      apply IH in H as (new & Hlog & Hreq & Hchain & Hids).
      cbn [log requests] in Hlog, Hreq.
      exists (Get u (params_for u) r :: evs ++ new).
      simpl. rewrite gets_of_app, ids_of_app, Hg, (ids_of_no_gets _ Hg).
      rewrite H200. simpl.
      rewrite Hlog, Hreq, <- app_assoc. simpl.
      unfold next_request. rewrite H200. simpl.
      rewrite add_ids_app, <- add_profiles_add_ids.
      repeat split; auto; lia.
    + rewrite profiles_loop_error in H by assumption. fold r in H.
      injection H as <- <-.
      exists [Get u (params_for u) r; Print (Profiles_error (status_code r))].
      apply Z.eqb_neq in H429, H200. unfold r in *.
      cbn [gets_of ids_of request_chain log requests].
      rewrite H200. cbn [length add_ids foldl].
      repeat split; auto; lia.
Qed.

Lemma get_segment_profile_ids_run fuel segment_id segment_name max_profiles
    w profile_ids w' :
  get_segment_profile_ids fuel segment_id segment_name max_profiles w
  = Some (profile_ids, w') ->
  exists new,
    log w' = log w ++ new /\
    requests w' = requests w + length (gets_of new) /\
    request_chain (Some (profiles_url BASE_URL segment_id)) (gets_of new) /\
    profile_ids = add_ids (ids_of new) ∅.
Proof.
  rewrite get_segment_profile_ids_unfold.
  destruct (profiles_loop fuel max_profiles _ ∅ _) as [[ids w1]|] eqn:E;
    [|discriminate].
  intros [= <- <-].
  apply profiles_loop_run in E as (new & Hlog & Hreq & Hchain & Hids).
  cbn [log requests print] in *.
  exists (Print (Fetching_profiles segment_name) :: new ++ [Print (Total (size ids))]).
  cbn [gets_of ids_of].
  rewrite gets_of_app, ids_of_app, Hlog. simpl.
  rewrite !app_nil_r, <- !app_assoc. simpl. auto.
Qed.

Lemma request_chain_params url gets :
  request_chain url gets ->
  Forall (fun g => snd (fst g) = params_for (fst (fst g))) gets.
Proof.
  revert url. induction gets as [|[[u ps] r] gets IH]; intros url H.
  - constructor.
  - destruct H as (_ & Hps & Hrest). constructor; [exact Hps | eauto].
Qed.

(** C9 (amended).  In every finished run of [get_segment_profile_ids]
    the first request goes to the start URL, every later request goes
    to the same URL again (after a 429) or to the next link of the
    previous page exactly as the server supplied it, and a request
    carries the page-size parameter exactly when its URL contains no
    ["?"]: a next link with a query string is requested as it is, one
    without gets the parameter again. *)
Theorem page_size_follows_query_string fuel segment_id segment_name
    max_profiles w profile_ids w' :
  get_segment_profile_ids fuel segment_id segment_name max_profiles w
  = Some (profile_ids, w') ->
  exists new,
    log w' = log w ++ new /\
    request_chain (Some (profiles_url BASE_URL segment_id)) (gets_of new) /\
    Forall (fun g =>
              snd (fst g) = if str_in "?" (fst (fst g))
                            then None else Some page_size_params)
           (gets_of new).
Proof.
  intros H.
  apply get_segment_profile_ids_run in H as (new & Hlog & _ & Hchain & _).
  exists new. split; [exact Hlog |]. split; [exact Hchain |].
  now apply request_chain_params in Hchain.
Qed.

(** C4.  The accumulator holds every identifier at most once, and it
    does so after each single insertion: inserting an identifier that
    is already there changes nothing, inserting a new one adds exactly
    one element; so after any number of insertions from any sequence of
    pages the accumulator has exactly as many elements as there are
    distinct identifiers among those inserted, and the set a finished
    run returns is the set of the identifiers on its 200 pages. *)
Theorem profile_ids_unique :
  (forall (x : string) (s : gset string),
     (x ∈ s -> set_add x s = s) /\
     (x ∉ s -> size (set_add x s) = S (size s))) /\
  (forall (pages : list (list resource)) (n : nat),
     let inserted := take n (concat (map (map res_id) pages)) in
     let s := add_ids inserted ∅ in
     NoDup (elements s) /\
     (forall x, x ∈ s <-> x ∈ inserted) /\
     size s = length (remove_dups inserted)) /\
  (forall fuel segment_id segment_name max_profiles w profile_ids w',
     get_segment_profile_ids fuel segment_id segment_name max_profiles w
     = Some (profile_ids, w') ->
     exists new,
       log w' = log w ++ new /\
       profile_ids = add_ids (ids_of new) ∅ /\
       (forall x, x ∈ profile_ids <-> x ∈ ids_of new) /\
       size profile_ids = length (remove_dups (ids_of new))).
Proof.
  split; [|split].
  - intros x s. split; [apply set_add_present | apply set_add_fresh].
  - intros pages n inserted s. split; [apply NoDup_elements |].
    split; [|apply size_add_ids].
    intros x. unfold s. rewrite elem_of_add_ids. set_solver.
  - intros fuel segment_id segment_name max_profiles w ids w' H.
    apply get_segment_profile_ids_run in H as (new & Hlog & _ & _ & Hids).
    exists new. split; [exact Hlog |]. split; [exact Hids |].
    subst ids. split; [|apply size_add_ids].
    intros x. rewrite elem_of_add_ids. set_solver.
Qed.

(** *** The record cap *)

Lemma ids_upto_NoDup_le (pages : nat -> list resource) j m :
  j <= m -> NoDup (ids_upto pages m) -> NoDup (ids_upto pages j).
Proof.
  induction 1 as [|m' Hm' IH]; intros Hm; [exact Hm |].
  apply IH. simpl in Hm. now apply NoDup_app in Hm as [? _].
Qed.

Section Cap.

(** A resource served in pages of [p] records each, all identifiers
    distinct, every page linking to the next. *)
Variable pages : nat -> list resource.
Variable urls : nat -> string.
Variables p m : nat.
Variable w : world.

Hypothesis p_pos : 0 < p.
Hypothesis urls_truthy : forall k, k <= m -> truthy (Some (urls k)) = true.
Hypothesis served : forall k, k < m ->
  let r := server (requests w + k) (urls k) (params_for (urls k)) in
  status_code r = 200%Z /\
  get_data (json r) = pages k /\
  get_next (json r) = Some (urls (S k)).
Hypothesis full_pages : forall k, k < m -> length (pages k) = p.
Hypothesis distinct : NoDup (ids_upto pages m).

Lemma ids_upto_length j : j <= m -> length (ids_upto pages j) = j * p.
Proof.
  induction j as [|j IH]; intros Hj; simpl; [reflexivity |].
  rewrite length_app, length_map, IH, full_pages by lia. lia.
Qed.

Lemma ids_upto_NoDup j : j <= m -> NoDup (ids_upto pages j).
Proof. intros Hj. exact (ids_upto_NoDup_le pages j m Hj distinct). Qed.

Lemma ids_upto_size j :
  j <= m -> size (list_to_set (ids_upto pages j) : gset string) = j * p.
Proof.
  intros Hj. rewrite size_list_to_set by now apply ids_upto_NoDup.
  now apply ids_upto_length.
Qed.

Lemma profiles_loop_pages extra d :
  forall j wj,
    j + d = m -> requests wj = requests w + j ->
    exists w',
      profiles_loop (d + extra) (Z.of_nat (m * p)) (Some (urls j))
        (list_to_set (ids_upto pages j)) wj
      = Some (list_to_set (ids_upto pages m), w') /\
      requests w' = requests wj + d.
Proof.
  induction d as [|d IH]; intros j wj Hjd Hreq.
  - assert (j = m) as -> by lia. exists wj. split; [|lia].
    apply profiles_loop_stop. intros [_ Hlt].
    rewrite ids_upto_size in Hlt by lia. lia.
  - assert (running (Z.of_nat (m * p)) (Some (urls j))
              (list_to_set (ids_upto pages j))) as Hrun.
    { split; [apply urls_truthy; lia |].
      rewrite ids_upto_size by lia. nia. }
    destruct (served j ltac:(lia)) as (H200 & Hdata & Hnext).
    rewrite <- Hreq in H200, Hdata, Hnext.
    change (S d + extra) with (S (d + extra)).
    destruct (profiles_loop_ok (d + extra) _ _ _ wj Hrun H200)
      as (evs & _ & _ & E).
    rewrite E, Hdata, Hnext.
    replace (add_profiles (pages j) (list_to_set (ids_upto pages j)))
      with (list_to_set (ids_upto pages (S j)) : gset string).
    + edestruct (IH (S j)) as (w' & Hrun' & Hreq'); [lia | | ].
      2:{ exists w'. split; [exact Hrun' |]. rewrite Hreq'. simpl. lia. }
      simpl. lia.
    + rewrite add_profiles_add_ids, add_ids_list_to_set. simpl.
      rewrite list_to_set_app_L. set_solver.
Qed.

End Cap.


(** *** Rate limiting in [get_campaign_revenue] *)

Section RateLimit.

Variable aggregates : nat -> string -> aggregate_query -> aggregate_response.
Variable round2 : Q -> option Q.

Lemma get_campaign_revenue_unfold depth campaign_id campaign_name metric_id
    start_date end_date debug w :
  get_campaign_revenue BASE_URL aggregates round2 (S depth)
    campaign_id campaign_name metric_id start_date end_date debug w =
  let w0 := print (Fetching_revenue (String.substring 0 40 campaign_name)) w in
  let url := aggregates_url BASE_URL in
  let payload := campaign_query campaign_id metric_id start_date end_date in
  let w1 := if debug then print (Payload payload) w0 else w0 in
  let (response, w2) := http_post aggregates url payload w1 in
  if (agg_status_code response =? 429)%Z then
    get_campaign_revenue BASE_URL aggregates round2 depth
      campaign_id campaign_name metric_id start_date end_date false
      (sleep 30 (print Rate_limited_30s w2))
  else if negb (agg_status_code response =? 200)%Z then
    Returns {| revenue := 0; orders := 0 |}
            (print (Error_body response)
               (print (Error_status (agg_status_code response)) w2))
  else
    let '(revenue_raw, orders_raw) :=
      match agg_results response with
      | first :: _ =>
          (first_or_zero (agg_sum_value first),
           first_or_zero (agg_count first))
      | [] => (Num 0, Num 0)
      end in
    match round_float round2 revenue_raw with
    | None => Raises OverflowError w2
    | Some revenue' =>
        let w3 := print (Revenue_line revenue_raw orders_raw) w2 in
        match int_of orders_raw with
        | inl e => Raises e w3
        | inr orders' =>
            Returns {| revenue := revenue'; orders := orders' |} w3
        end
    end.
Proof. reflexivity. Qed.

Local Abbreviation get_campaign_revenue :=
  (get_campaign_revenue BASE_URL aggregates round2).

(** One call that meets a 429: a line, 30 seconds of sleep, and a
    nested call with the same arguments ([debug] reset to its default). *)
Lemma get_campaign_revenue_429 depth campaign_id campaign_name metric_id
    start_date end_date debug w :
  let url := aggregates_url BASE_URL in
  let payload := campaign_query campaign_id metric_id start_date end_date in
  agg_status_code (aggregates (requests w) url payload) = 429%Z ->
  exists evs,
    sleeps_of evs = [30%Q] /\
    map (fun g => (fst (fst g), snd (fst g))) (posts_of evs) = [(url, payload)] /\
    get_campaign_revenue (S depth) campaign_id campaign_name metric_id
      start_date end_date debug w =
    get_campaign_revenue depth campaign_id campaign_name metric_id
      start_date end_date false
      {| requests := S (requests w); log := log w ++ evs |}.
Proof.
  intros url payload H429. rewrite get_campaign_revenue_unfold.
  fold url payload. cbv zeta. unfold http_post.
  destruct debug; unfold print, sleep; cbn [requests log];
    rewrite H429; cbn [Z.eqb Pos.eqb];
    eexists; (split; [|split; [|rewrite <- !app_assoc; simpl; reflexivity]]);
    reflexivity.
Qed.

Lemma get_campaign_revenue_retries k :
  forall depth campaign_id campaign_name metric_id start_date end_date debug w,
    let url := aggregates_url BASE_URL in
    let payload := campaign_query campaign_id metric_id start_date end_date in
    (forall i, i < k ->
       agg_status_code (aggregates (requests w + i) url payload) = 429%Z) ->
    exists evs,
      sleeps_of evs = repeat 30%Q k /\
      map (fun g => (fst (fst g), snd (fst g))) (posts_of evs)
        = repeat (url, payload) k /\
      get_campaign_revenue (k + depth) campaign_id campaign_name metric_id
        start_date end_date debug w =
      get_campaign_revenue depth campaign_id campaign_name metric_id
        start_date end_date (match k with O => debug | S _ => false end)
        {| requests := requests w + k; log := log w ++ evs |}.
Proof.
  induction k as [|k IH];
    intros depth campaign_id campaign_name metric_id start_date end_date
           debug w url payload H429.
  - exists []. simpl. rewrite Nat.add_0_r, app_nil_r. now destruct w.
  - destruct (get_campaign_revenue_429 (k + depth) campaign_id campaign_name
                metric_id start_date end_date debug w) as (evs1 & Hs1 & Hp1 & E1).
    { specialize (H429 0). rewrite Nat.add_0_r in H429. apply H429. lia. }
    destruct (IH depth campaign_id campaign_name metric_id start_date end_date
                false {| requests := S (requests w); log := log w ++ evs1 |})
      as (evs2 & Hs2 & Hp2 & E2).
    { intros i Hi. cbn [requests].
      replace (S (requests w) + i) with (requests w + S i) by lia.
      apply H429. lia. }
    exists (evs1 ++ evs2).
    rewrite sleeps_of_app, posts_of_app, map_app, Hs1, Hp1, Hs2, Hp2.
    split; [reflexivity |]. split; [reflexivity |].
    change (S k + depth) with (S (k + depth)). rewrite E1, E2.
    cbn [requests log]. rewrite <- app_assoc.
    replace (S (requests w) + k) with (requests w + S k) by lia.
    now destruct k.
Qed.

(** The first lines of a call: no sleep and no request. *)
Lemma first_lines (campaign_name : string) (payload : aggregate_query)
    (debug : bool) (w : world) :
  exists pre,
    sleeps_of pre = [] /\ posts_of pre = [] /\
    (if debug
     then print (Payload payload)
            (print (Fetching_revenue (String.substring 0 40 campaign_name)) w)
     else print (Fetching_revenue (String.substring 0 40 campaign_name)) w)
    = {| requests := requests w; log := log w ++ pre |}.
Proof.
  destruct debug; unfold print; cbn [requests log]; eexists;
    (split; [|split]);
    [| |rewrite <- ?app_assoc; reflexivity| | |reflexivity]; reflexivity.
Qed.

(** Answers that stay 429 use up the room the interpreter has: with
    room for [depth] nested calls, [depth] requests are made and
    answered, each followed by a sleep of 30 seconds, and the next call
    raises [RecursionError]. *)
Lemma get_campaign_revenue_exhausts depth :
  forall campaign_id campaign_name metric_id start_date end_date debug w,
    let url := aggregates_url BASE_URL in
    let payload := campaign_query campaign_id metric_id start_date end_date in
    (forall i, i < depth ->
       agg_status_code (aggregates (requests w + i) url payload) = 429%Z) ->
    exists evs,
      sleeps_of evs = repeat 30%Q depth /\
      map (fun g => (fst (fst g), snd (fst g))) (posts_of evs)
        = repeat (url, payload) depth /\
      get_campaign_revenue depth campaign_id campaign_name metric_id
        start_date end_date debug w
      = Raises RecursionError
          {| requests := requests w + depth; log := log w ++ evs |}.
Proof.
  intros campaign_id campaign_name metric_id start_date end_date debug w
         url payload H429.
  destruct (get_campaign_revenue_retries depth 0 campaign_id campaign_name
              metric_id start_date end_date debug w H429)
    as (evs & Hs & Hp & E).
  rewrite Nat.add_0_r in E. rewrite E. cbn [get_campaign_revenue].
  destruct (first_lines campaign_name payload
              (match depth with 0 => debug | S _ => false end)
              {| requests := requests w + depth; log := log w ++ evs |})
    as (pre & Hs0 & Hp0 & Hpre).
  fold payload. rewrite Hpre. cbn [requests log].
  exists (evs ++ pre).
  rewrite sleeps_of_app, posts_of_app, map_app, Hs, Hp, Hs0, Hp0, <- app_assoc.
  simpl. now rewrite !app_nil_r.
Qed.

(** C1 (amended).  On a 429 the fetch loop prints a line, sleeps 30
    seconds and asks for the same page again, and it does so without any
    bound: [k] rate-limited answers in a row are retried [k] times,
    whatever [k] is, after which the loop is where it was; and while
    the answers stay 429 the loop does not end.  [get_campaign_revenue]
    retries by calling itself, without a retry counter either: [k]
    answers of 429 nest [k] calls, each after a sleep of 30 seconds, and
    the only bound is the room the interpreter has for nested calls:
    whatever that room [depth] is, [depth] answers of 429 are retried
    [depth] times and the call then ends in [RecursionError]. *)
Theorem rate_limit_retries_unbounded :
  (forall max_profiles u profile_ids w,
     running max_profiles (Some u) profile_ids ->
     (forall k fuel,
        (forall i, i < k ->
           status_code (server (requests w + i) u (params_for u)) = 429%Z) ->
        profiles_loop (k + fuel) max_profiles (Some u) profile_ids w =
        profiles_loop fuel max_profiles (Some u) profile_ids
          {| requests := requests w + k;
             log := log w ++ retries_log server u (requests w) k |} /\
        sleeps_of (retries_log server u (requests w) k) = repeat 30%Q k /\
        gets_of (retries_log server u (requests w) k)
        = map (fun i => (u, params_for u, server i u (params_for u)))
              (seq (requests w) k)) /\
     ((forall n, requests w <= n ->
         status_code (server n u (params_for u)) = 429%Z) ->
      forall fuel,
        profiles_loop fuel max_profiles (Some u) profile_ids w = None)) /\
  (forall campaign_id campaign_name metric_id start_date end_date debug w,
     let url := aggregates_url BASE_URL in
     let payload := campaign_query campaign_id metric_id start_date end_date in
     (forall k depth,
        (forall i, i < k ->
           agg_status_code (aggregates (requests w + i) url payload) = 429%Z) ->
        exists evs,
          sleeps_of evs = repeat 30%Q k /\
          map (fun g => (fst (fst g), snd (fst g))) (posts_of evs)
            = repeat (url, payload) k /\
          get_campaign_revenue (k + depth) campaign_id campaign_name metric_id
            start_date end_date debug w =
          get_campaign_revenue depth campaign_id campaign_name metric_id
            start_date end_date (match k with O => debug | S _ => false end)
            {| requests := requests w + k; log := log w ++ evs |}) /\
     (forall depth,
        (forall i, i < depth ->
           agg_status_code (aggregates (requests w + i) url payload) = 429%Z) ->
        exists evs,
          sleeps_of evs = repeat 30%Q depth /\
          map (fun g => (fst (fst g), snd (fst g))) (posts_of evs)
            = repeat (url, payload) depth /\
          get_campaign_revenue depth campaign_id campaign_name metric_id
            start_date end_date debug w
          = Raises RecursionError
              {| requests := requests w + depth; log := log w ++ evs |})).
Proof.
  split.
  - intros max_profiles u profile_ids w Hrun. split.
    + intros k fuel H429. split; [now apply profiles_loop_retries |].
      split; [apply sleeps_of_retries_log | apply gets_of_retries_log].
    + intros H429 fuel. now apply profiles_loop_diverges.
  - intros campaign_id campaign_name metric_id start_date end_date debug w
           url payload.
    split.
    + intros k depth H429. now apply get_campaign_revenue_retries.
    + intros depth H429. now apply get_campaign_revenue_exhausts.
Qed.

End RateLimit.

End ApiProperties.

(** ** Rate limiting: scenarios *)

Lemma running_start (u : string) :
  truthy (Some u) = true -> running 50000 (Some u) ∅.
Proof. intros H. split; [exact H | reflexivity]. Qed.

Lemma rate_limit_retries_unbounded_witness :
  (profiles_loop (1 # 2) five_429_then_ok (5 + 1) 50000
     (Some seg1_profiles_url) ∅ start
   = profiles_loop (1 # 2) five_429_then_ok 1 50000
       (Some seg1_profiles_url) ∅
       {| requests := 5;
          log := retries_log five_429_then_ok seg1_profiles_url 0 5 |}) /\
  (forall fuel,
     profiles_loop (1 # 2) always_429 fuel 50000
       (Some seg1_profiles_url) ∅ start = None) /\
  (forall depth,
     exists evs,
       sleeps_of evs = repeat 30%Q depth /\
       map (fun g => (fst (fst g), snd (fst g))) (posts_of evs)
       = repeat (aggregates_url api,
                 campaign_query "M1" "METRIC" "2025-01-01T00:00:00"
                   "2025-04-01T00:00:00") depth /\
       get_campaign_revenue api aggregates_always_429 round2_of_scenarios depth
         "M1" "Spring" "METRIC" "2025-01-01T00:00:00" "2025-04-01T00:00:00"
         false start
       = Raises RecursionError
           {| requests := requests start + depth; log := log start ++ evs |}).
Proof.
  split; [|split].
  - apply (proj1 (rate_limit_retries_unbounded api (1 # 2) five_429_then_ok
                    aggregates_always_429 round2_of_scenarios)
             50000%Z seg1_profiles_url ∅ start).
    + apply running_start. reflexivity.
    + intros i Hi. simpl.
      do 5 (destruct i as [|i]; [reflexivity |]). lia.
  - apply (proj1 (rate_limit_retries_unbounded api (1 # 2) always_429
                    aggregates_always_429 round2_of_scenarios)
             50000%Z seg1_profiles_url ∅ start).
    + apply running_start. reflexivity.
    + intros n _. reflexivity.
  - intros depth.
    apply (proj2 (rate_limit_retries_unbounded api (1 # 2) always_429
                    aggregates_always_429 round2_of_scenarios)
             "M1" "Spring" "METRIC" "2025-01-01T00:00:00" "2025-04-01T00:00:00"
             false start).
    intros i _. reflexivity.
Defined.

(** Five 429s in a row are retried five times, more than any retry cap
    of three would allow, and the call then returns its set as usual;
    against a server that never stops answering 429
    [get_segment_profile_ids] never returns, whatever fuel it is given,
    and [get_campaign_revenue] retries as often as the interpreter has
    room for nested calls and then ends in [RecursionError].  In no case
    is the caller handed a rate-limit error. *)
Lemma rate_limit_exceeded_counterexample :
  (exists w,
     get_segment_profile_ids api (1 # 2) five_429_then_ok 6
       "SEG1" "No Delta 8" 50000 start = Some (∅, w) /\
     map (fun g => fst (fst g)) (gets_of (log w))
       = repeat seg1_profiles_url 6 /\
     sleeps_of (log w) = repeat 30%Q 5) /\
  (forall fuel,
     get_segment_profile_ids api (1 # 2) always_429 fuel
       "SEG1" "No Delta 8" 50000 start = None) /\
  (forall depth,
     exists w,
       get_campaign_revenue api aggregates_always_429 round2_of_scenarios depth
         "M1" "Spring" "METRIC" "2025-01-01T00:00:00" "2025-04-01T00:00:00"
         false start = Raises RecursionError w /\
       requests w = depth /\
       sleeps_of (log w) = repeat 30%Q depth).
Proof.
  split; [|split].
  - eexists. split; [vm_compute; reflexivity |]. split; reflexivity.
  - intros fuel. unfold get_segment_profile_ids.
    rewrite profiles_loop_diverges; [reflexivity | |].
    + apply running_start. reflexivity.
    + intros n _. reflexivity.
  - intros depth.
    destruct (get_campaign_revenue_exhausts api aggregates_always_429
                round2_of_scenarios depth
                "M1" "Spring" "METRIC" "2025-01-01T00:00:00"
                "2025-04-01T00:00:00" false start) as (evs & Hs & _ & E).
    { intros i _. reflexivity. }
    eexists. split; [exact E |]. split; [reflexivity | exact Hs].
Qed.

(** ** Failed requests: scenarios *)

Lemma fetch_failure_returns_partial_witness :
  profiles_loop (1 # 2) (fails_on_page_2 500) 1 50000 (Some page2_url)
    {[ "a"; "b" ]} {| requests := 1; log := [] |}
  = Some ({[ "a"; "b" ]},
          {| requests := 2;
             log := [Get page2_url None {| status_code := 500; json := no_keys |};
                     Print (Profiles_error 500)] |}) /\
  segments_loop always_429 1 (Some "https://a.klaviyo.com/api/segments/")
    [Segment "S1" "No Delta 8"] start
  = Some ([Segment "S1" "No Delta 8"],
          {| requests := 1;
             log := [Get "https://a.klaviyo.com/api/segments/" None
                       {| status_code := 429; json := no_keys |};
                     Print (Error_status 429)] |}).
Proof.
  split.
  - apply (proj1 (fetch_failure_returns_partial (1 # 2) (fails_on_page_2 500))).
    + split; [reflexivity | vm_compute; reflexivity].
    + simpl. lia.
    + simpl. lia.
  - apply (proj2 (fetch_failure_returns_partial (1 # 2) always_429)).
    + reflexivity.
    + simpl. lia.
Defined.

(** A run that fails with status 500 on its second page, one that fails
    there with 503, and one whose collection simply ends after the first
    page all hand the caller the same set: what is returned carries no
    status code, no page index and no sign of the failure at all. *)
Lemma fetch_failed_counterexample :
  let run server :=
    returned (get_segment_profile_ids api (1 # 2) server 5
                "SEG1" "No Delta 8" 50000 start) in
  run (fails_on_page_2 500) = Some {[ "a"; "b" ]} /\
  run (fails_on_page_2 503) = run (fails_on_page_2 500) /\
  run one_page = run (fails_on_page_2 500) /\
  ~ exists describe : option (gset string) -> option (Z * nat),
      describe (run (fails_on_page_2 500)) = Some (500%Z, 1) /\
      describe (run one_page) = None.
Proof.
  assert (returned (get_segment_profile_ids api (1 # 2) one_page 5
                      "SEG1" "No Delta 8" 50000 start)
          = returned (get_segment_profile_ids api (1 # 2) (fails_on_page_2 500) 5
                      "SEG1" "No Delta 8" 50000 start)) as E
    by (vm_compute; reflexivity).
  cbv zeta. split; [vm_compute; reflexivity |].
  split; [vm_compute; reflexivity |]. split; [exact E |].
  intros (describe & H1 & H2). rewrite E in H2. congruence.
Qed.

(** ** Pages with missing keys: scenarios *)


(** ** The page-size parameter: scenarios *)

Lemma page_size_follows_query_string_witness :
  exists new,
    log two_pages_world = log start ++ new /\
    request_chain (Some (profiles_url api "SEG1")) (gets_of new) /\
    Forall (fun g =>
              snd (fst g) = if str_in "?" (fst (fst g))
                            then None else Some page_size_params)
           (gets_of new).
Proof.
  apply (page_size_follows_query_string api (1 # 2) two_pages 5
           "SEG1" "No Delta 8" 50000 start {[ "a"; "b"; "c"; "d" ]}).
  vm_compute. reflexivity.
Defined.

(** When the server's next link has no query string, the second request
    carries the page-size parameter again. *)
Lemma page_size_reapplied_counterexample :
  exists profile_ids w,
    get_segment_profile_ids api (1 # 2) plain_next 5
      "SEG1" "No Delta 8" 50000 start = Some (profile_ids, w) /\
    map (fun g => (fst (fst g), snd (fst g))) (gets_of (log w))
    = [ (seg1_profiles_url, Some page_size_params);
        (plain_url, Some page_size_params) ].
Proof.
  do 2 eexists. split; [vm_compute; reflexivity | reflexivity].
Qed.

(** ** Deduplication: scenarios *)

Lemma profile_ids_unique_witness :
  set_add "a" {[ "a"; "b" ]} = ({[ "a"; "b" ]} : gset string) /\
  size (set_add "c" {[ "a"; "b" ]}) = S (size ({[ "a"; "b" ]} : gset string)) /\
  exists new,
    log dup_pages_world = log start ++ new /\
    ({[ "a"; "b"; "c" ]} : gset string) = add_ids (ids_of new) ∅ /\
    (forall x, x ∈ ({[ "a"; "b"; "c" ]} : gset string) <-> x ∈ ids_of new) /\
    size ({[ "a"; "b"; "c" ]} : gset string) = length (remove_dups (ids_of new)).
Proof.
  pose proof (profile_ids_unique api (1 # 2) dup_pages)
    as (Hadd & _ & Hrun).
  split; [|split].
  - apply (proj1 (Hadd "a" {[ "a"; "b" ]})).
    apply (bool_decide_unpack _). vm_compute. exact I.
  - apply (proj2 (Hadd "c" {[ "a"; "b" ]})).
    apply (bool_decide_unpack _). vm_compute. exact I.
  - apply (Hrun 5 "SEG1" "No Delta 8" 50000%Z start).
    vm_compute. reflexivity.
Defined.

Example dup_pages_inserted :
  ids_of (log dup_pages_world) = ["a"; "b"; "b"; "c"; "c"].
Proof. reflexivity. Qed.

(** ** The record cap: scenarios *)



(** The cap is tested between pages only: with a cap of 3 and pages of
    two records the call returns four identifiers. *)
Example cap_overshoot :
  returned (get_segment_profile_ids api (1 # 2) two_pages 5
              "SEG1" "No Delta 8" 3 start)
  = Some {[ "a"; "b"; "c"; "d" ]}.
Proof. vm_compute. reflexivity. Qed.

(** ** Overlap analysis *)

Lemma size_inter_difference (A B : gset string) :
  size (A ∩ B) + size (A ∖ B) = size A.
Proof.
  rewrite <- size_union by set_solver.
  f_equal. apply set_eq. intros x.
  rewrite elem_of_union, elem_of_intersection, elem_of_difference.
  destruct (decide (x ∈ B)); tauto.
Qed.

(** C3.  The overlap analysis reports the size of the intersection and
    the size of the difference of the two sets it is given, and the two
    counts add up to the size of the first set. *)
Theorem overlap_counts_add_up (segment_profiles : gmap string (gset string))
    (A B : gset string) :
  segment_profiles !! "No Delta 8" = Some A ->
  segment_profiles !! "No THCA" = Some B ->
  no_d8_and_no_thca (overlap_analysis segment_profiles) = Some (size (A ∩ B)) /\
  only_d8 (overlap_analysis segment_profiles) = Some (size (A ∖ B)) /\
  size (A ∩ B) + size (A ∖ B) = size A.
Proof.
  intros HA HB. unfold overlap_analysis. simpl. rewrite HA, HB.
  split; [reflexivity |]. split; [reflexivity |].
  apply size_inter_difference.
Qed.

Lemma overlap_counts_add_up_witness :
  no_d8_and_no_thca (overlap_analysis scenario_profiles)
    = Some (size ({[ "1"; "2"; "3"; "4" ]} ∩ {[ "3"; "4"; "5"; "6" ]} : gset string)) /\
  only_d8 (overlap_analysis scenario_profiles)
    = Some (size ({[ "1"; "2"; "3"; "4" ]} ∖ {[ "3"; "4"; "5"; "6" ]} : gset string)) /\
  size ({[ "1"; "2"; "3"; "4" ]} ∩ {[ "3"; "4"; "5"; "6" ]} : gset string)
  + size ({[ "1"; "2"; "3"; "4" ]} ∖ {[ "3"; "4"; "5"; "6" ]} : gset string)
  = size ({[ "1"; "2"; "3"; "4" ]} : gset string).
Proof.
  apply (overlap_counts_add_up scenario_profiles).
  - vm_compute. reflexivity.
  - vm_compute. reflexivity.
Defined.

Example overlap_scenario :
  overlap_analysis scenario_profiles
  = {| no_d8_and_no_thca := Some 2; only_d8 := Some 2;
       no_d8_and_semi_active := None; three_way := None |}.
Proof. vm_compute. reflexivity. Qed.

(** ** Revenue matching *)

Lemma lookup_revenue_cases (revenue_data : gmap string revenue_entry)
    (message_id : option string) :
  lookup_revenue revenue_data message_id =
  match message_id with
  | None => None
  | Some m => if String.eqb m "" then None else revenue_data !! m
  end.
Proof.
  destruct message_id as [m|]; [|reflexivity].
  unfold lookup_revenue, truthy. now destruct (String.eqb m "").
Qed.

Lemma lookup_revenue_Some (revenue_data : gmap string revenue_entry) m :
  revenue_data !! "" = None ->
  lookup_revenue revenue_data (Some m) = revenue_data !! m.
Proof.
  intros Hempty. rewrite lookup_revenue_cases.
  destruct (String.eqb_spec m "") as [-> | _]; [now rewrite Hempty | reflexivity].
Qed.

(** The loop visits the campaigns in order and keeps every one of them. *)
Lemma match_revenue_rows (revenue_data : gmap string revenue_entry) campaigns :
  forall total_orders matched_count,
    exists total_orders' matched_count',
      match_revenue revenue_data campaigns total_orders matched_count
      = (map (match_campaign revenue_data) campaigns,
         total_orders', matched_count').
Proof.
  induction campaigns as [|c rest IH]; intros t m; simpl; [eauto |].
  edestruct IH as (t' & m' & E). rewrite E. eauto.
Qed.

(** The guard [if not message_id: continue] keeps the empty string out
    of the dictionary [get_all_campaign_revenue] builds. *)
Lemma add_results_no_empty_key round2 results :
  forall revenue_by_campaign revenue_data,
    revenue_by_campaign !! "" = None ->
    add_results round2 revenue_by_campaign results = Some revenue_data ->
    revenue_data !! "" = None.
Proof.
  induction results as [|result rest IH]; intros acc revenue_data Hacc H;
    simpl in H.
  - now injection H as <-.
  - destruct (add_result round2 acc result) as [acc'|] eqn:E; [|discriminate].
    apply (IH acc'); [|exact H].
    unfold add_result in E.
    destruct (truthy (Some (result_message_id result))) eqn:T.
    + destruct (first_value (agg_sum_value result) _); [|discriminate].
      destruct (first_value (agg_count result) _); [|discriminate].
      destruct (round_float round2 _); [|discriminate].
      destruct (int_of _); [discriminate |].
      injection E as <-. rewrite lookup_insert_ne; [exact Hacc |].
      intros Heq. rewrite Heq in T. discriminate.
    + now injection E as <-.
Qed.

Lemma revenue_by_campaign_no_empty_key round2 results revenue_data :
  revenue_by_campaign_of round2 results = Some revenue_data ->
  revenue_data !! "" = None.
Proof. apply add_results_no_empty_key, lookup_empty. Qed.

(** What one iteration stores, case by case. *)
Lemma match_campaign_cases (revenue_data : gmap string revenue_entry) c :
  revenue_data !! "" = None ->
  let row := match_campaign revenue_data c in
  row_campaign row = c /\
  ((message_id c = None \/
    exists m, message_id c = Some m /\ revenue_data !! m = None) ->
   row_revenue row = 0%Q /\ row_orders row = 0%Z) /\
  (forall m e,
     message_id c = Some m -> revenue_data !! m = Some e ->
     row_revenue row = revenue e /\ row_orders row = orders e).
Proof.
  intros Hempty row. unfold row, match_campaign.
  split; [now destruct (lookup_revenue _ _) |]. split.
  - intros [Hnone | (m & Hm & Habsent)].
    + rewrite Hnone. simpl. auto.
    + rewrite Hm, lookup_revenue_Some, Habsent by exact Hempty. simpl. auto.
  - intros m e Hm He.
    rewrite Hm, lookup_revenue_Some, He by exact Hempty. simpl. auto.
Qed.

(** The same for the dictionary [get_all_campaign_revenue] builds, with
    nothing assumed about it. *)
Lemma match_campaign_on_aggregates round2 results revenue_data c :
  revenue_by_campaign_of round2 results = Some revenue_data ->
  let row := match_campaign revenue_data c in
  row_campaign row = c /\
  ((message_id c = None \/
    exists m, message_id c = Some m /\ revenue_data !! m = None) ->
   row_revenue row = 0%Q /\ row_orders row = 0%Z) /\
  (forall m e,
     message_id c = Some m -> revenue_data !! m = Some e ->
     row_revenue row = revenue e /\ row_orders row = orders e).
Proof.
  intros H. apply match_campaign_cases.
  exact (revenue_by_campaign_no_empty_key round2 results revenue_data H).
Qed.

(** C8.  The matching loop keeps every campaign and stores revenue 0
    and orders 0 in it when its message ID is [None] or is not a key of
    [revenue_data], and the revenue and orders of its entry otherwise.
    ([revenue_data] never has the empty string as a key.) *)
Theorem unmatched_campaign_gets_zero
    (revenue_data : gmap string revenue_entry) (campaigns : list campaign) :
  revenue_data !! "" = None ->
  (exists total_orders matched_count,
     match_revenue revenue_data campaigns 0 0
     = (map (match_campaign revenue_data) campaigns,
        total_orders, matched_count)) /\
  forall c,
    let row := match_campaign revenue_data c in
    row_campaign row = c /\
    ((message_id c = None \/
      exists m, message_id c = Some m /\ revenue_data !! m = None) ->
     row_revenue row = 0%Q /\ row_orders row = 0%Z) /\
    (forall m e,
       message_id c = Some m -> revenue_data !! m = Some e ->
       row_revenue row = revenue e /\ row_orders row = orders e).
Proof.
  intros Hempty. split; [apply match_revenue_rows |].
  intros c. now apply match_campaign_cases.
Qed.

Lemma unmatched_campaign_gets_zero_witness :
  (exists total_orders matched_count,
     match_revenue scenario_revenue scenario_campaigns 0 0
     = (map (match_campaign scenario_revenue) scenario_campaigns,
        total_orders, matched_count)) /\
  forall c,
    let row := match_campaign scenario_revenue c in
    row_campaign row = c /\
    ((message_id c = None \/
      exists m, message_id c = Some m /\ scenario_revenue !! m = None) ->
     row_revenue row = 0%Q /\ row_orders row = 0%Z) /\
    (forall m e,
       message_id c = Some m -> scenario_revenue !! m = Some e ->
       row_revenue row = revenue e /\ row_orders row = orders e).
Proof.
  apply (unmatched_campaign_gets_zero scenario_revenue scenario_campaigns).
  vm_compute. reflexivity.
Defined.

Example matching_scenario :
  match_revenue scenario_revenue scenario_campaigns 0 0
  = ([ {| row_campaign := {| campaign_id := "C1"; campaign_name := "Spring";
                             subject := "Hi"; send_time := "2025-03-01";
                             message_id := Some "M1" |};
          row_revenue := 1234 # 100; row_orders := 7 |};
       {| row_campaign := {| campaign_id := "C2"; campaign_name := "Summer";
                             subject := "Hey"; send_time := "2025-06-01";
                             message_id := None |};
          row_revenue := 0; row_orders := 0 |};
       {| row_campaign := {| campaign_id := "C3"; campaign_name := "Autumn";
                             subject := "Yo"; send_time := "2025-09-01";
                             message_id := Some "M3" |};
          row_revenue := 0; row_orders := 0 |} ], 7%Z, 1).
Proof. vm_compute. reflexivity. Qed.

(** * Further properties *)

(** ** [get_all_segments]: whole runs *)

Lemma segments_of_app (l1 l2 : list event) :
  segments_of (l1 ++ l2) = segments_of l1 ++ segments_of l2.
Proof.
  induction l1 as [|e l1 IH]; [reflexivity |].
  destruct e; simpl; rewrite IH; try reflexivity.
  destruct (status_code r =? 200)%Z; [now rewrite app_assoc | reflexivity].
Qed.

Section SegmentRuns.

Variable BASE_URL : string.
Variable server : nat -> string -> option params -> response.

(** Every finished run of the segment loop, read off its log. *)
Lemma segments_loop_run fuel :
  forall url segments w segments' w',
    segments_loop server fuel url segments w = Some (segments', w') ->
    exists new,
      log w' = log w ++ new /\
      requests w' = requests w + length (gets_of new) /\
      Forall (fun g => snd (fst g) = None) (gets_of new) /\
      segments' = segments ++ segments_of new.
Proof.
  induction fuel as [|fuel IH]; intros url segments w segments' w' H.
  - rewrite segments_loop_stop in H.
    + injection H as <- <-. exists []. simpl.
      rewrite !app_nil_r, Nat.add_0_r. auto.
    + destruct url as [u|]; [|reflexivity]. simpl in *.
      destruct (negb (String.eqb u "")); [discriminate | reflexivity].
  - destruct (truthy url) eqn:T.
    2:{ rewrite segments_loop_stop in H by exact T.
        injection H as <- <-. exists []. simpl.
        rewrite !app_nil_r, Nat.add_0_r. auto. }
    destruct url as [u|]; [|discriminate].
    set (r := server (requests w) u None).
    destruct (Z.eq_dec (status_code r) 200%Z) as [H200 | H200].
    + rewrite segments_loop_ok in H by assumption. fold r in H.
      apply IH in H as (new & Hlog & Hreq & Hps & Hsegs).
      cbn [log requests] in Hlog, Hreq.
      exists (Get u None r ::
              (if truthy (get_next (json r)) then [Sleep (3 # 10)] else [])
              ++ new).
      cbn [gets_of segments_of]. rewrite gets_of_app, segments_of_app, H200.
      rewrite Hlog, Hreq, Hsegs, <- !app_assoc.
      destruct (truthy (get_next (json r))); simpl;
        (split; [reflexivity |]); (split; [lia |]);
        (split; [constructor; [reflexivity | exact Hps] | reflexivity]).
    + rewrite segments_loop_error in H by assumption. fold r in H.
      injection H as <- <-.
      exists [Get u None r; Print (Error_status (status_code r))].
      apply Z.eqb_neq in H200. unfold r in *.
      cbn [gets_of segments_of log requests length]. rewrite H200.
      rewrite app_nil_r. repeat split; auto; try lia.
Qed.

(** X1.  Whatever [get_all_segments] returns is, in page order and with
    repetitions kept, the list of the segments on the pages that came
    back with status 200; every request it made went out without query
    parameters. *)
Theorem get_all_segments_in_page_order fuel w segments w' :
  get_all_segments BASE_URL server fuel w = Some (segments, w') ->
  exists new,
    log w' = log w ++ new /\
    segments = segments_of new /\
    requests w' = requests w + length (gets_of new) /\
    Forall (fun g => snd (fst g) = None) (gets_of new).
Proof.
  unfold get_all_segments. intros H.
  apply segments_loop_run in H as (new & Hlog & Hreq & Hps & Hsegs).
  cbn [log requests print] in Hlog, Hreq.
  exists (Print Fetching_segments :: new).
  rewrite Hlog, <- app_assoc. cbn [gets_of segments_of]. simpl in Hsegs.
  auto.
Qed.

(** A chain of [k] pages, the last one without a next link. *)
Lemma segments_loop_pages (pages : nat -> list resource) (urls : nat -> string)
    (k extra : nat) (w : world) :
  (forall j, j < k -> truthy (Some (urls j)) = true) ->
  (forall j, j < k ->
     let r := server (requests w + j) (urls j) None in
     status_code r = 200%Z /\
     get_data (json r) = pages j /\
     (S j < k -> get_next (json r) = Some (urls (S j))) /\
     (S j = k -> truthy (get_next (json r)) = false)) ->
  forall d j wj,
    j + S d = k -> requests wj = requests w + j ->
    exists new,
      segments_loop server (S d + extra) (Some (urls j))
        (segments_upto pages j) wj
      = Some (segments_upto pages k,
              {| requests := requests wj + S d; log := log wj ++ new |}) /\
      sleeps_of new = repeat (3 # 10)%Q d.
Proof.
  intros Htruthy Hserved.
  induction d as [|d IH]; intros j wj Hjd Hreq.
  - destruct (Hserved j ltac:(lia)) as (H200 & Hdata & _ & Hlast).
    rewrite <- Hreq in H200, Hdata, Hlast.
    change (1 + extra) with (S extra).
    rewrite segments_loop_ok; [|apply Htruthy; lia | exact H200].
    rewrite Hdata, (Hlast ltac:(lia)).
    rewrite segments_loop_stop by (apply Hlast; lia).
    exists [Get (urls j) None (server (requests wj) (urls j) None)].
    split; [|reflexivity].
    replace k with (S j) by lia. simpl. do 3 f_equal. lia.
  - destruct (Hserved j ltac:(lia)) as (H200 & Hdata & Hnext & _).
    rewrite <- Hreq in H200, Hdata, Hnext.
    change (S (S d) + extra) with (S (S d + extra)).
    rewrite segments_loop_ok; [|apply Htruthy; lia | exact H200].
    rewrite Hdata, (Hnext ltac:(lia)), (Htruthy (S j) ltac:(lia)).
    edestruct (IH (S j)) as (new & E & Hsleeps); [lia | | ].
    2:{ simpl segments_upto in E. rewrite E. cbn [requests log].
        exists ((Get (urls j) None (server (requests wj) (urls j) None)
                 :: [Sleep (3 # 10)]) ++ new).
        split.
        - replace (S (requests wj) + S d) with (requests wj + S (S d)) by lia.
          now rewrite <- !app_assoc.
        - rewrite sleeps_of_app. simpl. now rewrite Hsleeps. }
    simpl. lia.
Qed.

(** X2.  When the server holds [k >= 1] pages of segments chained by
    next links, the last page having none, [get_all_segments] returns
    after exactly [k] requests with all the segments of the [k] pages in
    order, having slept 0.3 seconds between pages. *)
Theorem get_all_segments_complete (pages : nat -> list resource)
    (urls : nat -> string) (k extra : nat) (w : world) :
  0 < k ->
  urls 0 = BASE_URL +:+ "/segments/" ->
  (forall j, j < k -> truthy (Some (urls j)) = true) ->
  (forall j, j < k ->
     let r := server (requests w + j) (urls j) None in
     status_code r = 200%Z /\
     get_data (json r) = pages j /\
     (S j < k -> get_next (json r) = Some (urls (S j))) /\
     (S j = k -> truthy (get_next (json r)) = false)) ->
  exists new,
    get_all_segments BASE_URL server (k + extra) w
    = Some (segments_upto pages k,
            {| requests := requests w + k; log := log w ++ new |}) /\
    sleeps_of new = repeat (3 # 10)%Q (k - 1).
Proof.
  intros Hk Hstart Htruthy Hserved.
  destruct k as [|d]; [lia |].
  destruct (segments_loop_pages pages urls (S d) extra w Htruthy Hserved
              d 0 (print Fetching_segments w)) as (new & E & Hsleeps);
    [lia | simpl; lia |].
  unfold get_all_segments. rewrite <- Hstart.
  simpl segments_upto in E at 1. rewrite E.
  exists (Print Fetching_segments :: new). split.
  - cbn [requests log print]. rewrite <- app_assoc. reflexivity.
  - simpl. rewrite Hsleeps. f_equal. lia.
Qed.

(** X3.  [get_all_segments] has no page limit: against a server that
    answers every request with a 200 page carrying a next link, the
    loop never ends. *)
Theorem segments_loop_endless fuel :
  forall u segments w,
    truthy (Some u) = true ->
    (forall n url, requests w <= n ->
       status_code (server n url None) = 200%Z /\
       truthy (get_next (json (server n url None))) = true) ->
    segments_loop server fuel (Some u) segments w = None.
Proof.
  induction fuel as [|fuel IH]; intros u segments w Hu Hserver.
  - simpl. simpl in Hu. now rewrite Hu.
  - destruct (Hserver (requests w) u ltac:(lia)) as (H200 & Hnext).
    rewrite segments_loop_ok by assumption. rewrite Hnext.
    destruct (get_next (json (server (requests w) u None))) as [u'|] eqn:E;
      [|discriminate].
    apply IH; [exact Hnext |].
    intros n url Hn. apply Hserver. cbn [requests] in Hn. lia.
Qed.

End SegmentRuns.

(** ** [get_segment_profile_ids]: the cap, again *)

Lemma size_list_to_set_le (l : list string) :
  size (list_to_set l : gset string) <= length l.
Proof.
  induction l as [|x l IH].
  - change (list_to_set [] : gset string) with (∅ : gset string).
    now rewrite size_empty.
  - rewrite list_to_set_cons, size_union_alt, size_singleton. simpl.
    assert (size (list_to_set l ∖ {[x]} : gset string)
            <= size (list_to_set l : gset string))
      by (apply subseteq_size; set_solver).
    lia.
Qed.

Lemma size_add_profiles (profiles : list resource) (s : gset string) :
  size (add_profiles profiles s) <= size s + length profiles.
Proof.
  rewrite add_profiles_add_ids, add_ids_list_to_set.
  rewrite size_union_alt.
  assert (size (s ∖ list_to_set (map res_id profiles)) <= size s)
    by (apply subseteq_size; set_solver).
  pose proof (size_list_to_set_le (map res_id profiles)) as Hle.
  rewrite length_map in Hle. lia.
Qed.

Lemma add_profiles_subseteq (profiles : list resource) (s K : gset string) :
  s ⊆ K -> (forall x, x ∈ map res_id profiles -> x ∈ K) ->
  add_profiles profiles s ⊆ K.
Proof.
  intros Hs Hall. rewrite add_profiles_add_ids, add_ids_list_to_set.
  apply union_least; [|exact Hs].
  intros x Hx. apply elem_of_list_to_set in Hx. now apply Hall.
Qed.

Section ProfileRuns.

Variable BASE_URL : string.
Variable RATE_LIMIT_DELAY : Q.
Variable server : nat -> string -> option params -> response.

Lemma profiles_loop_overshoot (p : nat) fuel :
  (forall n url ps, length (get_data (json (server n url ps))) <= p) ->
  forall max_profiles url profile_ids w profile_ids' w',
    profiles_loop RATE_LIMIT_DELAY server fuel max_profiles url profile_ids w
    = Some (profile_ids', w') ->
    (Z.of_nat (size profile_ids')
     <= Z.max (Z.of_nat (size profile_ids)) (max_profiles - 1 + Z.of_nat p))%Z.
Proof.
  intros Hp.
  induction fuel as [|fuel IH]; intros max_profiles url ids w ids' w' H.
  - destruct url as [u|]; simpl in H.
    + destruct (negb (String.eqb u "") && _); [discriminate |].
      injection H as <- <-. lia.
    + injection H as <- <-. lia.
  - destruct url as [u|]; [|simpl in H; injection H as <- <-; lia].
    destruct (negb (String.eqb u "")
              && (Z.of_nat (size ids) <? max_profiles)%Z) eqn:T.
    2:{ rewrite profiles_loop_unfold, T in H. injection H as <- <-. lia. }
    assert (running max_profiles (Some u) ids) as Hrun.
    { apply andb_true_iff in T as [T1 T2]. split; [exact T1 |].
      now apply Z.ltb_lt. }
    pose proof Hrun as [_ Hlt].
    set (r := server (requests w) u (params_for u)).
    destruct (Z.eq_dec (status_code r) 429%Z) as [H429 | H429];
      [|destruct (Z.eq_dec (status_code r) 200%Z) as [H200 | H200]].
    + rewrite profiles_loop_429 in H by assumption. now apply IH in H.
    + destruct (profiles_loop_ok RATE_LIMIT_DELAY server fuel _ _ _ w Hrun H200)
        as (evs & _ & _ & E).
      rewrite E in H. apply IH in H.
      pose proof (size_add_profiles (get_data (json r)) ids) as Hadd.
      pose proof (Hp (requests w) u (params_for u)) as Hlen. fold r in Hlen, H.
      lia.
    + rewrite profiles_loop_error in H by assumption.
      injection H as <- <-. lia.
Qed.

(** X4.  The cap is overshot by less than one page: with [0 <
    max_profiles] and pages of at most [p] records the returned set has
    fewer than [max_profiles + p] elements; and with [max_profiles <= 0]
    no request is made at all and the empty set is returned. *)
Theorem cap_overshoot_below_one_page (p : nat) fuel segment_id segment_name
    max_profiles w :
  ((max_profiles <= 0)%Z ->
   get_segment_profile_ids BASE_URL RATE_LIMIT_DELAY server fuel
     segment_id segment_name max_profiles w
   = Some (∅, {| requests := requests w;
                 log := log w ++ [Print (Fetching_profiles segment_name);
                                  Print (Total 0)] |})) /\
  ((0 < max_profiles)%Z ->
   (forall n url ps, length (get_data (json (server n url ps))) <= p) ->
   forall profile_ids w',
     get_segment_profile_ids BASE_URL RATE_LIMIT_DELAY server fuel
       segment_id segment_name max_profiles w = Some (profile_ids, w') ->
     (Z.of_nat (size profile_ids) < max_profiles + Z.of_nat p)%Z).
Proof.
  split.
  - intros Hmax. rewrite get_segment_profile_ids_unfold.
    rewrite profiles_loop_stop.
    + unfold print. cbn [requests log]. rewrite size_empty.
      now rewrite <- app_assoc.
    + intros [_ Hlt]. rewrite size_empty in Hlt. lia.
  - intros Hmax Hp ids w' H. rewrite get_segment_profile_ids_unfold in H.
    destruct (profiles_loop _ _ _ _ _ _ _) as [[ids0 w0]|] eqn:E; [|discriminate].
    injection H as <- <-.
    apply (profiles_loop_overshoot p fuel Hp) in E.
    rewrite size_empty in E. lia.
Qed.

(** X5.  The cap bounds the size of the set, not the number of
    requests: while every answer is a 200 page with a next link and the
    identifiers served stay inside a set smaller than the cap, the loop
    never ends. *)
Theorem profiles_loop_endless (K : gset string) max_profiles fuel :
  (Z.of_nat (size K) < max_profiles)%Z ->
  forall u profile_ids w,
    truthy (Some u) = true ->
    profile_ids ⊆ K ->
    (forall n url ps, requests w <= n ->
       let r := server n url ps in
       status_code r = 200%Z /\
       truthy (get_next (json r)) = true /\
       (forall x, x ∈ map res_id (get_data (json r)) -> x ∈ K)) ->
    profiles_loop RATE_LIMIT_DELAY server fuel max_profiles (Some u)
      profile_ids w = None.
Proof.
  intros HK.
  induction fuel as [|fuel IH]; intros u ids w Hu Hids Hserver.
  - apply profiles_loop_out_of_fuel. split; [exact Hu |].
    apply subseteq_size in Hids. lia.
  - assert (running max_profiles (Some u) ids) as Hrun.
    { split; [exact Hu |]. apply subseteq_size in Hids. lia. }
    destruct (Hserver (requests w) u (params_for u) ltac:(lia))
      as (H200 & Hnext & Hin).
    destruct (profiles_loop_ok RATE_LIMIT_DELAY server fuel _ _ _ w Hrun H200)
      as (evs & _ & _ & E).
    rewrite E.
    destruct (get_next (json (server (requests w) u (params_for u))))
      as [u'|] eqn:En; [|discriminate].
    apply IH; [exact Hnext | now apply add_profiles_subseteq |].
    intros n url ps Hn. apply Hserver. cbn [requests] in Hn. lia.
Qed.

End ProfileRuns.

(** ** [find_segment]: edge cases *)

Lemma str_in_empty (hay : string) : str_in "" hay = true.
Proof. apply str_in_spec. exists "", hay. reflexivity. Qed.

Section FindSegmentEdges.

Variable lower : string -> string.

Lemma first_exact_ext search search' segments :
  lower search = lower search' ->
  first_exact lower search segments = first_exact lower search' segments.
Proof.
  intros H. induction segments as [|s rest IH]; simpl; [reflexivity |].
  unfold exact_match. now rewrite H, IH.
Qed.

(** X6.  The lookup depends on the search string through its lowercase
    form only: two search strings that differ in case give the same
    answer. *)
Theorem find_segment_ignores_case segments search search' :
  lower search = lower search' ->
  find_segment lower segments search = find_segment lower segments search'.
Proof.
  intros H. unfold find_segment.
  rewrite (first_exact_ext search search' segments H).
  assert (List.filter (partial_match lower search) segments
          = List.filter (partial_match lower search') segments) as ->.
  { apply List.filter_ext. intros s. unfold partial_match. now rewrite H. }
  reflexivity.
Qed.

(** X7.  An empty search string is contained in every name: when no
    segment has an empty name, the lookup succeeds exactly when the
    list has a single segment. *)
Theorem find_segment_empty_search segments :
  lower "" = "" ->
  (forall s, s ∈ segments -> lower (seg_name s) <> "") ->
  find_segment lower segments ""
  = match segments with
    | [s] => Some s
    | _ => None
    end.
Proof.
  intros Hlower Hnames. unfold find_segment.
  rewrite (proj2 (first_exact_None lower "" segments)).
  - assert (List.filter (partial_match lower "") segments = segments) as ->.
    { clear Hnames. induction segments as [|s rest IH]; simpl; [reflexivity |].
      unfold partial_match at 1. rewrite Hlower, str_in_empty. now rewrite IH. }
    reflexivity.
  - intros s Hs He. apply (Hnames s Hs). unfold name_equals in He.
    now rewrite He.
Qed.

End FindSegmentEdges.

(** ** Overlap analysis: how the counts relate *)

(** X8.  When all three segments are present the four counts are
    reported and are consistent: the three-way count is at most either
    pairwise count, a pairwise count is at most the size of either set,
    and the two pairwise counts exceed the size of "No Delta 8" by at
    most the three-way count. *)
Theorem overlap_counts_consistent (segment_profiles : gmap string (gset string))
    (A B C : gset string) :
  segment_profiles !! "No Delta 8" = Some A ->
  segment_profiles !! "No THCA" = Some B ->
  segment_profiles !! "Semi Active" = Some C ->
  exists ab only ac abc,
    overlap_analysis segment_profiles
    = {| no_d8_and_no_thca := Some ab; only_d8 := Some only;
         no_d8_and_semi_active := Some ac; three_way := Some abc |} /\
    abc <= ab /\ abc <= ac /\
    ab <= size A /\ ab <= size B /\ ac <= size A /\ ac <= size C /\
    only <= size A /\
    ab + ac <= size A + abc.
Proof.
  intros HA HB HC. unfold overlap_analysis. rewrite HA, HB, HC.
  eexists _, _, _, _. split; [reflexivity |].
  repeat split; try (apply subseteq_size; set_solver).
  assert (size (A ∩ B) + size (A ∩ C)
          = size ((A ∩ B) ∪ (A ∩ C)) + size (A ∩ B ∩ C)) as ->.
  { rewrite (size_union_alt (A ∩ B) (A ∩ C)).
    rewrite <- (size_inter_difference (A ∩ C) (A ∩ B)).
    assert (A ∩ C ∩ (A ∩ B) = A ∩ B ∩ C) as -> by set_solver. lia. }
  assert (size ((A ∩ B) ∪ (A ∩ C)) <= size A)
    by (apply subseteq_size; set_solver).
  lia.
Qed.

(** X9.  What the cap does to the report: if the fetched sets [A'] and
    [B'] are parts of the full sets [A] and [B], the reported overlap
    is at most the true overlap, while the reported "only Delta 8"
    count can exceed the true one, by at most the number of profiles
    missing from [B']. *)
Theorem overlap_of_truncated_sets
    (fetched full : gmap string (gset string)) (A' B' A B : gset string) :
  fetched !! "No Delta 8" = Some A' -> fetched !! "No THCA" = Some B' ->
  full !! "No Delta 8" = Some A -> full !! "No THCA" = Some B ->
  A' ⊆ A -> B' ⊆ B ->
  exists ab' only' ab only,
    no_d8_and_no_thca (overlap_analysis fetched) = Some ab' /\
    only_d8 (overlap_analysis fetched) = Some only' /\
    no_d8_and_no_thca (overlap_analysis full) = Some ab /\
    only_d8 (overlap_analysis full) = Some only /\
    ab' <= ab /\
    only' <= only + (size B - size B').
Proof.
  intros HA' HB' HA HB HsubA HsubB. unfold overlap_analysis. simpl.
  rewrite HA', HB', HA, HB. eexists _, _, _, _.
  do 4 (split; [reflexivity |]). split.
  - apply subseteq_size. set_solver.
  - assert (A' ∖ B' ⊆ (A ∖ B) ∪ (B ∖ B')) as Hsub.
    { intros x Hx. apply elem_of_difference in Hx as [HxA HxB].
      destruct (decide (x ∈ B)); set_solver. }
    apply subseteq_size in Hsub.
    rewrite (size_union (A ∖ B) (B ∖ B')) in Hsub by set_solver.
    rewrite (size_difference B B') in Hsub by exact HsubB. exact Hsub.
Qed.

(** ** The dictionary of [get_all_campaign_revenue] *)

Lemma truthy_Some (s : string) : truthy (Some s) = true <-> s <> "".
Proof.
  unfold truthy. destruct (String.eqb_spec s ""); simpl; split; congruence.
Qed.

Lemma truthy_Some_false (s : string) : truthy (Some s) = false <-> s = "".
Proof.
  unfold truthy. destruct (String.eqb_spec s ""); simpl; split; congruence.
Qed.

Section RevenueDictionary.

Variable round2 : Q -> option Q.

Lemma add_result_entry acc result :
  add_result round2 acc result =
  if truthy (Some (result_message_id result)) then
    match entry_of round2 result with
    | Some e => Some (<[result_message_id result := e]> acc)
    | None => None
    end
  else Some acc.
Proof.
  unfold add_result, entry_of.
  destruct (truthy _); [|reflexivity].
  destruct (first_value (agg_sum_value result) _); [|reflexivity].
  destruct (first_value (agg_count result) _); [|reflexivity].
  destruct (round_float round2 _); [|reflexivity].
  now destruct (int_of _).
Qed.

Lemma add_results_None results :
  forall acc,
    add_results round2 acc results = None <->
    exists result,
      result ∈ results /\ result_message_id result <> "" /\
      entry_of round2 result = None.
Proof.
  induction results as [|result rest IH]; intros acc; simpl.
  - split; [discriminate |]. intros (r & Hr & _). inversion Hr.
  - rewrite add_result_entry.
    destruct (truthy (Some (result_message_id result))) eqn:T.
    + destruct (entry_of round2 result) as [e|] eqn:E.
      * rewrite IH. split.
        -- intros (r & Hr & H). exists r. split; [now right | exact H].
        -- intros (r & Hr & Hid & He). inversion Hr; subst; [congruence |].
           exists r. auto.
      * split; [|reflexivity]. intros _. exists result.
        split; [left |]. split; [now apply truthy_Some | exact E].
    + rewrite IH. apply truthy_Some_false in T. split.
      * intros (r & Hr & H). exists r. split; [now right | exact H].
      * intros (r & Hr & Hid & He). inversion Hr; subst; [congruence |].
        exists r. auto.
Qed.

Lemma add_results_lookup results :
  forall acc revenue_data,
    add_results round2 acc results = Some revenue_data ->
    forall m e,
      revenue_data !! m = Some e <->
      (exists l1 result l2,
         results = l1 ++ result :: l2 /\
         result_message_id result = m /\ m <> "" /\
         entry_of round2 result = Some e /\
         forall r, r ∈ l2 -> result_message_id r <> m) \/
      (acc !! m = Some e /\
       (m = "" \/ forall r, r ∈ results -> result_message_id r <> m)).
Proof.
  induction results as [|result rest IH]; intros acc revenue_data H m e;
    simpl in H.
  - injection H as <-. split.
    + intros Hm. right. split; [exact Hm |]. right. intros r Hr. inversion Hr.
    + intros [(l1 & r & l2 & Hl & _) | [Hm _]]; [now destruct l1 | exact Hm].
  - rewrite add_result_entry in H.
    destruct (truthy (Some (result_message_id result))) eqn:T.
    + destruct (entry_of round2 result) as [e0|] eqn:E; [|discriminate].
      apply truthy_Some in T.
      rewrite (IH _ _ H m e). split.
      * intros [(l1 & r & l2 & -> & Hid & Hm & He & Hlater) | [Hacc Hno]].
        -- left. exists (result :: l1), r, l2. auto.
        -- destruct (decide (result_message_id result = m)) as [Heq | Hne].
           ++ rewrite Heq, lookup_insert_eq in Hacc. injection Hacc as <-.
              left. exists [], result, rest.
              repeat split; auto; [congruence |].
              destruct Hno as [-> | Hno]; [congruence | exact Hno].
           ++ rewrite lookup_insert_ne in Hacc by exact Hne.
              right. split; [exact Hacc |].
              destruct Hno as [-> | Hno]; [now left | right].
              intros r Hr. inversion Hr; subst; auto.
      * intros [(l1 & r & l2 & Hl & Hid & Hm & He & Hlater) | [Hacc Hno]].
        -- destruct l1 as [|x l1]; simpl in Hl; injection Hl as <- ->.
           ++ right. rewrite Hid, lookup_insert_eq. split; [congruence |].
              now right.
           ++ left. exists l1, r, l2. auto.
        -- right. rewrite lookup_insert_ne.
           ++ split; [exact Hacc |].
              destruct Hno as [-> | Hno]; [now left | right].
              intros r Hr. apply Hno. now right.
           ++ destruct Hno as [-> | Hno]; [exact T | apply Hno; left].
    + apply truthy_Some_false in T. rewrite (IH _ _ H m e). split.
      * intros [(l1 & r & l2 & -> & Hid & Hm & He & Hlater) | [Hacc Hno]].
        -- left. exists (result :: l1), r, l2. auto.
        -- right. split; [exact Hacc |].
           destruct Hno as [-> | Hno]; [now left |].
           destruct (decide (m = "")) as [-> | Hm]; [now left | right].
           intros r Hr. inversion Hr; subst; [congruence | auto].
      * intros [(l1 & r & l2 & Hl & Hid & Hm & He & Hlater) | [Hacc Hno]].
        -- destruct l1 as [|x l1]; simpl in Hl; injection Hl as <- ->.
           ++ congruence.
           ++ left. exists l1, r, l2. auto.
        -- right. split; [exact Hacc |].
           destruct Hno as [-> | Hno]; [now left | right].
           intros r Hr. apply Hno. now right.
Qed.

(** X10.  The dictionary holds, for every non-empty message ID among
    the results, the entry of the last result that carries it, and
    nothing else. *)
Theorem revenue_dictionary_last_wins results revenue_data :
  revenue_by_campaign_of round2 results = Some revenue_data ->
  forall m e,
    revenue_data !! m = Some e <->
    exists l1 result l2,
      results = l1 ++ result :: l2 /\
      result_message_id result = m /\ m <> "" /\
      entry_of round2 result = Some e /\
      forall r, r ∈ l2 -> result_message_id r <> m.
Proof.
  intros H m e. unfold revenue_by_campaign_of in H.
  rewrite (add_results_lookup results ∅ revenue_data H m e).
  split; [|now left].
  intros [Hl | [Hempty _]]; [exact Hl |].
  rewrite lookup_empty in Hempty. discriminate.
Qed.

(** What makes reading a result raise: an empty list ([IndexError]), an
    integer revenue too large for a float ([OverflowError]), a count
    that is an infinity ([OverflowError]) or a NaN ([ValueError]). *)
Lemma entry_of_None result :
  agg_sum_value result = Some (M_list []) \/
  agg_count result = Some (M_list []) \/
  (exists q,
     first_value (agg_sum_value result) (M_list [Num 0]) = Some (Num q) /\
     round2 q = None) \/
  first_value (agg_count result) (M_list [Num 0]) = Some NaN \/
  (exists negative,
     first_value (agg_count result) (M_list [Num 0]) = Some (Inf negative)) ->
  entry_of round2 result = None.
Proof.
  unfold entry_of.
  intros [H | [H | [(q & H & Hq) | [H | (negative & H)]]]]; rewrite H.
  - reflexivity.
  - now destruct (first_value (agg_sum_value result) _).
  - simpl. rewrite Hq. now destruct (first_value (agg_count result) _).
  - destruct (first_value (agg_sum_value result) _) as [x|]; [|reflexivity].
    now destruct (round_float round2 x).
  - destruct (first_value (agg_sum_value result) _) as [x|]; [|reflexivity].
    now destruct (round_float round2 x).
Qed.

Section UnreadableResult.

Variable BASE_URL : string.
Variable grouped_api : nat -> string -> grouped_query -> aggregate_response.

(** X11.  One result that cannot be read loses every figure.  When some
    result with a non-empty message ID has an empty list as its
    ["sum_value"] or its ["count"], an integer revenue that [float]
    rejects, or a count that is an infinity or a NaN, building the
    dictionary raises, whatever the other results are, and
    [get_all_campaign_revenue] raises with it on a 200 answer carrying
    these results: it returns no dictionary, not even for the results
    that could be read. *)
Theorem revenue_dictionary_raises results result :
  result ∈ results ->
  result_message_id result <> "" ->
  agg_sum_value result = Some (M_list []) \/
  agg_count result = Some (M_list []) \/
  (exists q,
     first_value (agg_sum_value result) (M_list [Num 0]) = Some (Num q) /\
     round2 q = None) \/
  first_value (agg_count result) (M_list [Num 0]) = Some NaN \/
  (exists negative,
     first_value (agg_count result) (M_list [Num 0]) = Some (Inf negative)) ->
  revenue_by_campaign_of round2 results = None /\
  forall metric_id start_date end_date w,
    let r := grouped_api (calls w) (aggregates_url BASE_URL)
               {| g_metric_id := metric_id; g_start_date := start_date;
                  g_end_date := end_date |} in
    agg_status_code r = 200%Z ->
    agg_results r = results ->
    get_all_campaign_revenue BASE_URL grouped_api round2
      metric_id start_date end_date w = None.
Proof.
  intros Hin Hid Hbad.
  assert (Hnone : revenue_by_campaign_of round2 results = None).
  { unfold revenue_by_campaign_of. apply add_results_None.
    exists result. split; [exact Hin |]. split; [exact Hid |].
    now apply entry_of_None. }
  split; [exact Hnone |].
  intros metric_id start_date end_date w r H200 Hres.
  unfold get_all_campaign_revenue. cbn [say calls trace]. fold r.
  rewrite H200, Hres, Hnone. reflexivity.
Qed.

End UnreadableResult.

End RevenueDictionary.

(** ** [get_placed_order_metric_id] *)

Lemma find_app {A} (f : A -> bool) (l1 l2 : list A) :
  List.find f (l1 ++ l2)
  = match List.find f l1 with
    | Some x => Some x
    | None => List.find f l2
    end.
Proof.
  induction l1 as [|x l1 IH]; simpl; [reflexivity |].
  now destruct (f x).
Qed.

Lemma metrics_seen_app (l1 l2 : list export_event) :
  metrics_seen (l1 ++ l2) = metrics_seen l1 ++ metrics_seen l2.
Proof.
  induction l1 as [|e l1 IH]; [reflexivity |].
  destruct e; simpl; rewrite IH; try reflexivity.
  destruct (m_status r =? 200)%Z; [now rewrite app_assoc | reflexivity].
Qed.

Lemma naps_of_app (l1 l2 : list export_event) :
  naps_of (l1 ++ l2) = naps_of l1 ++ naps_of l2.
Proof.
  induction l1 as [|e l1 IH]; [reflexivity |].
  destruct e; simpl; now rewrite IH.
Qed.

Section MetricLookup.

Variable BASE_URL : string.
Variable lower : string -> string.
Variable metrics_api : nat -> string -> metrics_response.

Lemma metrics_loop_unfold fuel u w :
  metrics_loop lower metrics_api (S fuel) (Some u) w =
  if negb (String.eqb u "") then
    let response := metrics_api (calls w) u in
    let w1 := {| calls := S (calls w);
                 trace := trace w ++ [Get_metrics u response] |} in
    if negb (m_status response =? 200)%Z then
      Some (None, say (Error_fetching_metrics (m_status response)) w1)
    else
      let body := m_json response in
      match List.find (is_placed_order lower) (get_metrics body) with
      | Some m =>
          Some (Some (m_id m), say (Found_metric (metric_name m) (m_id m)) w1)
      | None =>
          metrics_loop lower metrics_api fuel (get_metrics_next body)
            (nap (1 # 2) w1)
      end
  else Some (None, say Metric_not_found w).
Proof. reflexivity. Qed.

Lemma metrics_loop_stop fuel url w :
  truthy url = false ->
  metrics_loop lower metrics_api fuel url w = Some (None, say Metric_not_found w).
Proof.
  intros H. destruct url as [u|]; [|now destruct fuel].
  simpl in H. destruct fuel; simpl; now rewrite H.
Qed.

(** Every finished run, read off its trace. *)
Lemma metrics_loop_run fuel :
  forall url w result w',
    metrics_loop lower metrics_api fuel url w = Some (result, w') ->
    exists new,
      trace w' = trace w ++ new /\
      (List.find (is_placed_order lower) (metrics_seen new) = None ->
       result = None) /\
      (forall m, List.find (is_placed_order lower) (metrics_seen new) = Some m ->
                 result = Some (m_id m)).
Proof.
  induction fuel as [|fuel IH]; intros url w result w' H.
  - destruct (truthy url) eqn:T.
    + destruct url as [u|]; [|discriminate]. simpl in *. now rewrite T in H.
    + rewrite metrics_loop_stop in H by exact T. injection H as <- <-.
      exists [Say Metric_not_found]. simpl. split; [reflexivity |].
      split; [reflexivity | discriminate].
  - destruct (truthy url) eqn:T.
    2:{ rewrite metrics_loop_stop in H by exact T. injection H as <- <-.
        exists [Say Metric_not_found]. simpl. split; [reflexivity |].
        split; [reflexivity | discriminate]. }
    destruct url as [u|]; [|discriminate].
    rewrite metrics_loop_unfold in H. simpl in T. rewrite T in H. cbv zeta in H.
    set (r := metrics_api (calls w) u) in *.
    destruct (m_status r =? 200)%Z eqn:H200; cbn [negb] in H.
    + destruct (List.find (is_placed_order lower) (get_metrics (m_json r)))
        as [m|] eqn:F.
      * injection H as <- <-.
        exists [Get_metrics u r; Say (Found_metric (metric_name m) (m_id m))].
        cbn [metrics_seen say trace]. rewrite H200, app_nil_r, F.
        split; [now rewrite <- app_assoc |].
        split; [discriminate | now intros m' [= <-]].
      * apply IH in H as (new & Hlog & Hnone & Hsome).
        cbn [nap trace] in Hlog.
        exists (Get_metrics u r :: Nap (1 # 2) :: new).
        cbn [metrics_seen]. rewrite H200, find_app, F.
        split; [|split; assumption].
        rewrite Hlog, <- !app_assoc. reflexivity.
    + injection H as <- <-.
      exists [Get_metrics u r; Say (Error_fetching_metrics (m_status r))].
      cbn [metrics_seen say trace]. rewrite H200.
      split; [now rewrite <- app_assoc |].
      split; [reflexivity | discriminate].
Qed.

(** X12.  Whatever [get_placed_order_metric_id] returns is the ID of the
    first metric, in page order, whose lowercased name contains
    ["placed order"] among the metrics of the 200 pages it fetched, and
    [None] when there is none among them. *)
Theorem placed_order_first_match fuel w result w' :
  get_placed_order_metric_id BASE_URL lower metrics_api fuel w
  = Some (result, w') ->
  exists new,
    trace w' = trace w ++ new /\
    result = option_map m_id
               (List.find (is_placed_order lower) (metrics_seen new)).
Proof.
  unfold get_placed_order_metric_id. intros H.
  apply metrics_loop_run in H as (new & Hlog & Hnone & Hsome).
  cbn [say trace] in Hlog.
  exists (Say Finding_metric :: new). cbn [metrics_seen].
  split; [now rewrite Hlog, <- app_assoc |].
  destruct (List.find (is_placed_order lower) (metrics_seen new)) as [m|];
    simpl; [now apply Hsome | now apply Hnone].
Qed.

(** [k] pages without a matching metric, chained by next links, cost
    [k] requests and [k] naps of half a second. *)
Lemma metrics_loop_skip (urls : nat -> option string) (k fuel : nat)
    (w : export_world) :
  (forall j, j < k ->
     exists u,
       urls j = Some u /\ u <> "" /\
       let r := metrics_api (calls w + j) u in
       m_status r = 200%Z /\
       List.find (is_placed_order lower) (get_metrics (m_json r)) = None /\
       get_metrics_next (m_json r) = urls (S j)) ->
  forall d j wj,
    j + d = k -> calls wj = calls w + j ->
    exists new,
      naps_of new = repeat (1 # 2)%Q d /\
      metrics_loop lower metrics_api (d + fuel) (urls j) wj
      = metrics_loop lower metrics_api fuel (urls k)
          {| calls := calls wj + d; trace := trace wj ++ new |}.
Proof.
  intros Hpages.
  induction d as [|d IH]; intros j wj Hjd Hcalls.
  - exists []. split; [reflexivity |].
    assert (j = k) as -> by lia.
    rewrite Nat.add_0_r, app_nil_r. now destruct wj.
  - destruct (Hpages j ltac:(lia)) as (u & Hu & Hne & H200 & Hfind & Hnext).
    rewrite <- Hcalls in H200, Hfind, Hnext.
    change (S d + fuel) with (S (d + fuel)).
    rewrite Hu, metrics_loop_unfold.
    apply String.eqb_neq in Hne. rewrite Hne. cbv zeta.
    rewrite H200, Hfind, Hnext. cbn [Z.eqb Pos.eqb negb].
    edestruct (IH (S j)) as (new & Hnaps & E); [lia | | ].
    2:{ rewrite E. cbn [nap calls trace].
        exists ((Get_metrics u (metrics_api (calls wj) u) :: [Nap (1 # 2)])
                ++ new).
        split; [rewrite naps_of_app; simpl; now rewrite Hnaps |].
        replace (S (calls wj) + d) with (calls wj + S d) by lia.
        now rewrite <- !app_assoc. }
    simpl. lia.
Qed.

(** X13.  After [k] pages without a match, chained by next links: a
    page with a match ends the search with the ID of its first matching
    metric; a page with a status other than 200 ends it with [None],
    also when that status is 429; and a missing next link ends it with
    [None].  Each of the [k] pages costs one request and one nap of
    half a second. *)
Theorem placed_order_search (urls : nat -> option string) (k fuel : nat)
    (w : export_world) :
  urls 0 = Some (metrics_url BASE_URL) ->
  (forall j, j < k ->
     exists u,
       urls j = Some u /\ u <> "" /\
       let r := metrics_api (calls w + j) u in
       m_status r = 200%Z /\
       List.find (is_placed_order lower) (get_metrics (m_json r)) = None /\
       get_metrics_next (m_json r) = urls (S j)) ->
  (forall u m,
     urls k = Some u -> u <> "" ->
     let r := metrics_api (calls w + k) u in
     m_status r = 200%Z ->
     List.find (is_placed_order lower) (get_metrics (m_json r)) = Some m ->
     exists new,
       get_placed_order_metric_id BASE_URL lower metrics_api (k + S fuel) w
       = Some (Some (m_id m),
               {| calls := calls w + S k; trace := trace w ++ new |}) /\
       naps_of new = repeat (1 # 2)%Q k) /\
  (forall u,
     urls k = Some u -> u <> "" ->
     m_status (metrics_api (calls w + k) u) <> 200%Z ->
     exists new,
       get_placed_order_metric_id BASE_URL lower metrics_api (k + S fuel) w
       = Some (None, {| calls := calls w + S k; trace := trace w ++ new |}) /\
       naps_of new = repeat (1 # 2)%Q k) /\
  (truthy (urls k) = false ->
   exists new,
     get_placed_order_metric_id BASE_URL lower metrics_api (k + fuel) w
     = Some (None, {| calls := calls w + k; trace := trace w ++ new |}) /\
     naps_of new = repeat (1 # 2)%Q k).
Proof.
  intros Hstart Hpages.
  assert (Hskip : forall fuel',
             exists new,
               naps_of new = repeat (1 # 2)%Q k /\
               get_placed_order_metric_id BASE_URL lower metrics_api (k + fuel') w
               = metrics_loop lower metrics_api fuel' (urls k)
                   {| calls := calls w + k; trace := trace w ++ new |}).
  { intros fuel'.
    destruct (metrics_loop_skip urls k fuel' (say Finding_metric w) Hpages
                k 0 (say Finding_metric w)) as (new & Hnaps & E);
      [lia | simpl; lia |].
    exists (Say Finding_metric :: new). split; [exact Hnaps |].
    unfold get_placed_order_metric_id. rewrite <- Hstart, E.
    cbn [say calls trace]. now rewrite <- app_assoc. }
  split; [|split].
  - intros u m Hu Hne r H200 Hfind.
    destruct (Hskip (S fuel)) as (new & Hnaps & E).
    exists (new ++ [Get_metrics u r; Say (Found_metric (metric_name m) (m_id m))]).
    rewrite E, Hu, metrics_loop_unfold.
    apply String.eqb_neq in Hne. rewrite Hne. cbv zeta. cbn [calls trace].
    fold r. rewrite H200, Hfind. cbn [Z.eqb Pos.eqb negb say calls trace].
    split.
    + replace (calls w + S k) with (S (calls w + k)) by lia.
      unfold say. cbn [calls trace]. now rewrite <- !app_assoc.
    + rewrite naps_of_app. simpl. now rewrite app_nil_r.
  - intros u Hu Hne H200.
    destruct (Hskip (S fuel)) as (new & Hnaps & E).
    set (r := metrics_api (calls w + k) u) in *.
    exists (new ++ [Get_metrics u r; Say (Error_fetching_metrics (m_status r))]).
    rewrite E, Hu, metrics_loop_unfold.
    apply String.eqb_neq in Hne. rewrite Hne. cbv zeta. cbn [calls trace].
    fold r. apply Z.eqb_neq in H200. rewrite H200. cbn [negb say calls trace].
    split.
    + replace (calls w + S k) with (S (calls w + k)) by lia.
      unfold say. cbn [calls trace]. now rewrite <- !app_assoc.
    + rewrite naps_of_app. simpl. now rewrite app_nil_r.
  - intros Hlast.
    destruct (Hskip fuel) as (new & Hnaps & E).
    exists (new ++ [Say Metric_not_found]).
    rewrite E, metrics_loop_stop by exact Hlast.
    unfold say. cbn [calls trace].
    split.
    + now rewrite <- !app_assoc.
    + rewrite naps_of_app. simpl. now rewrite app_nil_r.
Qed.

End MetricLookup.

(** ** [get_campaigns] and the matching loop *)

Section CampaignLookup.

Variable BASE_URL : string.
Variable messages_api : nat -> string -> messages_response.

Lemma fetch_message_ids_spec rows :
  forall i n w,
    exists campaigns new,
      fetch_message_ids BASE_URL messages_api rows i n w
      = (campaigns,
         {| calls := calls w + length rows; trace := trace w ++ new |}) /\
      length campaigns = length rows /\
      naps_of new = repeat (1 # 2)%Q (length rows) /\
      forall j row,
        rows !! j = Some row ->
        campaigns !! j
        = Some (campaign_of row
                  (message_id_of
                     (messages_api (calls w + j)
                        (message_url BASE_URL (csv_campaign_id row))))).
Proof.
  induction rows as [|row rest IH]; intros i n w.
  - exists [], []. simpl. rewrite Nat.add_0_r, app_nil_r.
    split; [now destruct w |]. split; [reflexivity |].
    split; [reflexivity | intros j r Hj; discriminate].
  - cbn [fetch_message_ids]. unfold get_campaign_message_id.
    set (r := messages_api (calls w) (message_url BASE_URL (csv_campaign_id row))).
    set (w1 := {| calls := S (calls w);
                  trace := trace w ++ [Get_messages
                                         (message_url BASE_URL (csv_campaign_id row)) r] |}).
    set (w2 := if ((i + 1) mod 10 =? 0)%nat
               then say (Message_ids_done (i + 1) n) w1 else w1).
    destruct (IH (S i) n (nap (1 # 2) w2)) as (campaigns & new & E & Hlen & Hnaps & Hrows).
    rewrite E.
    assert (exists evs, trace w2 = trace w ++ evs /\ naps_of evs = [] /\
                        calls w2 = S (calls w)) as (evs & Hevs & Hnap0 & Hcalls).
    { unfold w2. destruct ((i + 1) mod 10 =? 0)%nat; unfold say, w1;
        cbn [calls trace]; eexists; (split; [|split]);
        [rewrite <- app_assoc; reflexivity | reflexivity | reflexivity
        | reflexivity | reflexivity | reflexivity]. }
    exists (campaign_of row (message_id_of r) :: campaigns),
           (evs ++ Nap (1 # 2) :: new).
    unfold nap in *. cbn [calls trace] in *.
    rewrite Hevs, Hcalls in *.
    split; [|split; [|split]].
    + replace (calls w + length (row :: rest))
        with (S (calls w) + length rest) by (simpl; lia).
      rewrite <- !app_assoc. reflexivity.
    + simpl. now rewrite Hlen.
    + rewrite naps_of_app, Hnap0. simpl. now rewrite Hnaps.
    + intros [|j] row' Hj; simpl in Hj.
      * injection Hj as <-. simpl. rewrite Nat.add_0_r. reflexivity.
      * simpl. rewrite (Hrows j row' Hj).
        replace (calls w + S j) with (S (calls w) + j) by lia. reflexivity.
Qed.

Lemma get_campaigns_rows csv_file rows w :
  exists campaigns new,
    get_campaigns BASE_URL messages_api (Some (csv_file, rows)) w
    = (campaigns,
       {| calls := calls w + length rows; trace := trace w ++ new |}) /\
    length campaigns = length rows /\
    naps_of new = repeat (1 # 2)%Q (length rows) /\
    forall j row,
      rows !! j = Some row ->
      campaigns !! j
      = Some (campaign_of row
                (message_id_of
                   (messages_api (calls w + j)
                      (message_url BASE_URL (csv_campaign_id row))))).
Proof.
  unfold get_campaigns.
  destruct (fetch_message_ids_spec rows 0 (length rows)
              (say (Fetching_message_ids (length rows))
                 (say (Reading_campaigns csv_file) w)))
    as (campaigns & new & E & Hlen & Hnaps & Hrows).
  rewrite E. unfold say in *. cbn [calls trace] in *.
  eexists campaigns, _. split; [|split; [|split]].
  - f_equal. f_equal. rewrite <- !app_assoc. reflexivity.
  - exact Hlen.
  - rewrite !naps_of_app. simpl. now rewrite Hnaps, app_nil_r.
  - exact Hrows.
Qed.

(** X14.  [get_campaigns] returns one campaign per row of the CSV, in
    the order of the rows and with the row's four fields, after exactly
    one lookup request and one half-second nap per row; the message ID
    stored in a campaign is the one read off the answer to its own
    lookup.  Without a CSV file it returns the empty list without any
    request. *)
Theorem get_campaigns_one_lookup_per_row :
  (forall w,
     get_campaigns BASE_URL messages_api None w = ([], say No_campaign_csv w)) /\
  (forall csv_file rows w,
     exists campaigns new,
       get_campaigns BASE_URL messages_api (Some (csv_file, rows)) w
       = (campaigns,
          {| calls := calls w + length rows; trace := trace w ++ new |}) /\
       length campaigns = length rows /\
       naps_of new = repeat (1 # 2)%Q (length rows) /\
       forall j row,
         rows !! j = Some row ->
         campaigns !! j
         = Some (campaign_of row
                   (message_id_of
                      (messages_api (calls w + j)
                         (message_url BASE_URL (csv_campaign_id row)))))).
Proof.
  split; [reflexivity |].
  intros csv_file rows w. apply get_campaigns_rows.
Qed.

(** X15.  A campaign whose lookup is answered with a status other than
    200 (a 429, say) or with no message is kept, with message ID
    [None]; the matching loop then stores revenue 0 and orders 0 in it,
    whatever [revenue_data] holds. *)
Theorem failed_lookup_gives_zero_revenue csv_file rows w j row :
  rows !! j = Some row ->
  let r := messages_api (calls w + j)
             (message_url BASE_URL (csv_campaign_id row)) in
  msg_status r <> 200%Z \/ msg_data r = None \/ msg_data r = Some [] ->
  exists c,
    fst (get_campaigns BASE_URL messages_api (Some (csv_file, rows)) w) !! j
    = Some c /\
    c = campaign_of row None /\
    forall revenue_data,
      match_campaign revenue_data c
      = {| row_campaign := c; row_revenue := 0; row_orders := 0 |}.
Proof.
  intros Hj r Hfail.
  destruct (get_campaigns_rows csv_file rows w)
    as (campaigns & new & E & _ & _ & Hrows).
  rewrite E. cbn [fst]. rewrite (Hrows j row Hj). fold r.
  assert (message_id_of r = None) as ->.
  { unfold message_id_of. destruct Hfail as [H | [H | H]].
    - apply Z.eqb_neq in H. now rewrite H.
    - rewrite H. now destruct (msg_status r =? 200)%Z.
    - rewrite H. now destruct (msg_status r =? 200)%Z. }
  eexists. split; [reflexivity |]. split; [reflexivity |].
  intros revenue_data. reflexivity.
Qed.

End CampaignLookup.

Lemma match_revenue_totals (revenue_data : gmap string revenue_entry) campaigns :
  forall total_orders matched_count,
    match_revenue revenue_data campaigns total_orders matched_count
    = (map (match_campaign revenue_data) campaigns,
       (total_orders + orders_sum (map (match_campaign revenue_data) campaigns))%Z,
       matched_count + length (List.filter (matched revenue_data) campaigns)).
Proof.
  induction campaigns as [|c rest IH]; intros t m; simpl.
  - now rewrite Z.add_0_r, Nat.add_0_r.
  - rewrite IH. rewrite Z.add_assoc. f_equal.
    unfold matched at 2.
    destruct (lookup_revenue revenue_data (message_id c)); simpl; lia.
Qed.

(** X16.  The totals of the matching loop: [total_orders] is the sum of
    the orders stored in the rows, [matched_count] is the number of
    campaigns that found an entry, at most the number of campaigns; and
    a campaign counts as matched exactly when its row carries the
    figures of an entry of [revenue_data]. *)
Theorem matching_totals (revenue_data : gmap string revenue_entry) campaigns :
  exists rows total_orders matched_count,
    match_revenue revenue_data campaigns 0 0
    = (rows, total_orders, matched_count) /\
    rows = map (match_campaign revenue_data) campaigns /\
    total_orders = orders_sum rows /\
    matched_count = length (List.filter (matched revenue_data) campaigns) /\
    matched_count <= length campaigns /\
    forall c,
      matched revenue_data c = true <->
      exists m e,
        message_id c = Some m /\ m <> "" /\ revenue_data !! m = Some e /\
        match_campaign revenue_data c
        = {| row_campaign := c; row_revenue := revenue e;
             row_orders := orders e |}.
Proof.
  eexists _, _, _. split; [apply match_revenue_totals |].
  split; [reflexivity |]. split; [reflexivity |].
  split; [reflexivity |]. split; [apply List.filter_length_le |].
  intros c. unfold matched, match_campaign.
  rewrite lookup_revenue_cases.
  destruct (message_id c) as [m|].
  - destruct (String.eqb_spec m "") as [-> | Hne].
    + split; [discriminate |]. intros (m' & e & [= <-] & Hm & _). congruence.
    + destruct (revenue_data !! m) as [e|] eqn:E.
      * split; [|reflexivity]. intros _. exists m, e. auto.
      * split; [discriminate |].
        intros (m' & e & [= <-] & _ & He & _). congruence.
  - split; [discriminate |]. intros (m & e & Hm & _). discriminate.
Qed.

Section AggregateFailure.

Variable BASE_URL : string.
Variable grouped_api : nat -> string -> grouped_query -> aggregate_response.
Variable round2 : Q -> option Q.

(** X17.  When the aggregate query is answered with a status other than
    200, [get_all_campaign_revenue] returns the empty dictionary after
    that single request, and the matching loop then gives every
    campaign revenue 0 and orders 0 and counts no match. *)
Theorem failed_aggregate_gives_all_zero metric_id start_date end_date w :
  agg_status_code
    (grouped_api (calls w) (aggregates_url BASE_URL)
       {| g_metric_id := metric_id; g_start_date := start_date;
          g_end_date := end_date |}) <> 200%Z ->
  exists w',
    get_all_campaign_revenue BASE_URL grouped_api round2
      metric_id start_date end_date w = Some (∅, w') /\
    calls w' = S (calls w) /\
    forall campaigns,
      match_revenue ∅ campaigns 0 0
      = (map (fun c => {| row_campaign := c; row_revenue := 0;
                          row_orders := 0 |}) campaigns, 0%Z, 0).
Proof.
  intros Hstatus. unfold get_all_campaign_revenue.
  cbn [say calls trace]. apply Z.eqb_neq in Hstatus. rewrite Hstatus.
  cbn [negb]. eexists. split; [reflexivity |]. split; [reflexivity |].
  intros campaigns. rewrite match_revenue_totals.
  assert (Hzero : forall c : campaign,
             match_campaign ∅ c
             = {| row_campaign := c; row_revenue := 0; row_orders := 0 |}).
  { intros c. unfold match_campaign. rewrite lookup_revenue_cases.
    destruct (message_id c) as [m|]; [|reflexivity].
    destruct (String.eqb m ""); [reflexivity |]. now rewrite lookup_empty. }
  assert (Hrows : map (match_campaign ∅) campaigns
                  = map (fun c => {| row_campaign := c; row_revenue := 0;
                                     row_orders := 0 |}) campaigns)
    by (apply map_ext; exact Hzero).
  rewrite Hrows. f_equal; [f_equal |].
  - clear. induction campaigns as [|c rest IH]; simpl; [reflexivity |].
    now rewrite IH.
  - assert (List.filter (matched ∅) campaigns = []) as ->; [|reflexivity].
    clear -Hzero. induction campaigns as [|c rest IH]; simpl; [reflexivity |].
    unfold matched at 1. rewrite lookup_revenue_cases.
    destruct (message_id c) as [m|]; [|exact IH].
    destruct (String.eqb m ""); [exact IH |]. now rewrite lookup_empty.
Qed.

End AggregateFailure.

(** ** Retries that end well *)

Section RetryThenSuccess.

Variable BASE_URL : string.
Variable RATE_LIMIT_DELAY : Q.
Variable server : nat -> string -> option params -> response.
Variable aggregates : nat -> string -> aggregate_query -> aggregate_response.
Variable round2 : Q -> option Q.

(** X18.  [k] answers of 429 followed by a 200 page without a next
    link: [get_segment_profile_ids] returns the identifiers of that
    page after [k + 1] requests, all to the start URL, having slept 30
    seconds exactly [k] times and not otherwise. *)
Theorem retries_then_last_page k extra segment_id segment_name max_profiles w :
  (0 < max_profiles)%Z ->
  let u := profiles_url BASE_URL segment_id in
  (forall i, i < k ->
     status_code (server (requests w + i) u (params_for u)) = 429%Z) ->
  let r := server (requests w + k) u (params_for u) in
  status_code r = 200%Z ->
  get_next (json r) = None ->
  exists new,
    get_segment_profile_ids BASE_URL RATE_LIMIT_DELAY server (k + S extra)
      segment_id segment_name max_profiles w
    = Some (add_profiles (get_data (json r)) ∅,
            {| requests := requests w + S k; log := log w ++ new |}) /\
    sleeps_of new = repeat 30%Q k /\
    map (fun g => fst (fst g)) (gets_of new) = repeat u (S k).
Proof.
  intros Hmax u H429 r H200 Hnext.
  assert (running max_profiles (Some u) ∅) as Hrun.
  { split; [apply profiles_url_truthy | now rewrite size_empty]. }
  rewrite get_segment_profile_ids_unfold. fold u.
  rewrite (profiles_loop_retries RATE_LIMIT_DELAY server k (S extra)
             max_profiles u ∅ _ Hrun) by exact H429.
  cbn [requests log print].
  set (wk := {| requests := requests w + k;
                log := (log w ++ [Print (Fetching_profiles segment_name)])
                       ++ retries_log server u (requests w) k |}).
  destruct (profiles_loop_last_page RATE_LIMIT_DELAY server extra
              max_profiles u ∅ wk Hrun H200 Hnext) as (evs & Hg & Hs & E).
  rewrite E. unfold wk, print. cbn [requests log]. fold r.
  exists (Print (Fetching_profiles segment_name)
          :: retries_log server u (requests w) k
          ++ Get u (params_for u) r :: evs
          ++ [Print (Total (size (add_profiles (get_data (json r)) ∅)))]).
  split; [|split].
  - replace (S (requests w + k)) with (requests w + S k) by lia.
    do 3 f_equal. rewrite <- !app_assoc. reflexivity.
  - cbn [sleeps_of]. rewrite sleeps_of_app, sleeps_of_retries_log.
    cbn [sleeps_of]. rewrite sleeps_of_app, Hs. simpl. now rewrite app_nil_r.
  - cbn [gets_of]. rewrite gets_of_app, gets_of_retries_log.
    cbn [gets_of]. rewrite gets_of_app, Hg. simpl.
    rewrite map_app, map_map. simpl.
    change (repeat u (S k)) with (u :: repeat u k).
    rewrite (repeat_cons k u). f_equal.
    clear. generalize (requests w). induction k as [|k IH]; intros n; simpl;
      [reflexivity | now rewrite IH].
Qed.


End RetryThenSuccess.

(** ** [get_segment_count] *)

(** [get_segment_count] makes exactly one request, to the URL the
    profile fetch starts from and with page size 1, and never retries.
    A status other than 200 gives -1; a result other than -1 is the
    ["total"] of the response's ["meta"] or, when that key is absent,
    the ["total"] of its ["page"]; and ["total"] takes precedence over
    [["page"]["total"]]. *)
Lemma segment_count_from_meta (BASE_URL : string)
    (count_api : nat -> string -> option params -> count_response)
    (segment_id : string) (n : nat) :
  let r := count_api n (profiles_url BASE_URL segment_id) (Some count_params) in
  let count := fst (get_segment_count BASE_URL count_api segment_id n) in
  snd (get_segment_count BASE_URL count_api segment_id n) = S n /\
  (count_status r <> 200%Z -> count = (-1)%Z) /\
  (count <> (-1)%Z ->
   count_status r = 200%Z /\
   exists meta,
     count_meta r = Some meta /\
     (meta_total meta = Some count \/
      meta_total meta = None /\
      exists p, meta_page meta = Some p /\ page_total p = Some count)) /\
  (forall meta total,
     count_status r = 200%Z -> count_meta r = Some meta ->
     meta_total meta = Some total -> count = total).
Proof.
  intros r count. unfold count, get_segment_count. cbn [fst snd]. fold r.
  unfold segment_count_of.
  split; [reflexivity |]. split; [|split].
  - intros H. apply Z.eqb_neq in H. now rewrite H.
  - destruct (count_status r =? 200)%Z eqn:E; cbn [negb]; [|congruence].
    apply Z.eqb_eq in E. intros Hc. split; [exact E |].
    destruct (count_meta r) as [[[t|] [[[pt|]]|]]|]; simpl in *;
      try congruence; eexists; (split; [reflexivity |]); simpl; eauto.
  - intros meta total H200 Hmeta Htotal.
    apply Z.eqb_eq in H200. rewrite H200, Hmeta, Htotal. reflexivity.
Qed.

(** ** Further properties: scenarios *)

Lemma get_all_segments_in_page_order_witness :
  exists segments w' new,
    get_all_segments api segment_pages 5 start = Some (segments, w') /\
    log w' = log start ++ new /\
    segments = segments_of new /\
    requests w' = requests start + length (gets_of new) /\
    Forall (fun g => snd (fst g) = None) (gets_of new).
Proof.
  destruct (get_all_segments api segment_pages 5 start) as [[segments w']|] eqn:E;
    [|vm_compute in E; discriminate].
  destruct (get_all_segments_in_page_order api segment_pages 5 start
              segments w' E) as (new & H).
  exists segments, w', new. split; [reflexivity | exact H].
Defined.

Lemma get_all_segments_complete_witness :
  exists new,
    get_all_segments api segment_pages (2 + 0) start
    = Some (segments_upto segment_pages_pages 2,
            {| requests := requests start + 2; log := log start ++ new |}) /\
    sleeps_of new = repeat (3 # 10)%Q (2 - 1).
Proof.
  apply (get_all_segments_complete api segment_pages
           segment_pages_pages segment_pages_urls 2 0 start).
  - lia.
  - reflexivity.
  - intros j Hj. destruct j as [|[|j]]; [reflexivity | reflexivity | lia].
  - intros j Hj. destruct j as [|[|j]]; [| |lia].
    + split; [reflexivity |]. split; [reflexivity |].
      split; [intros _; reflexivity | intros H; lia].
    + split; [reflexivity |]. split; [reflexivity |].
      split; [intros H; lia | intros _; reflexivity].
Defined.

Example segment_pages_result :
  segments_upto segment_pages_pages 2
  = [Segment "S1" "No Delta 8"; Segment "S2" "No THCA";
     Segment "S3" "Semi Active"].
Proof. reflexivity. Qed.

Lemma segments_loop_endless_witness :
  segments_loop endless 1000 (Some segments_start_url) [] start = None.
Proof.
  apply (segments_loop_endless endless 1000 segments_start_url [] start).
  - reflexivity.
  - intros n url _. split; reflexivity.
Defined.

Lemma cap_overshoot_below_one_page_witness :
  get_segment_profile_ids api (1 # 2) two_pages 5 "SEG1" "No Delta 8" 0 start
  = Some (∅, {| requests := requests start;
                log := log start ++ [Print (Fetching_profiles "No Delta 8");
                                     Print (Total 0)] |}) /\
  (forall profile_ids w',
     get_segment_profile_ids api (1 # 2) two_pages 5 "SEG1" "No Delta 8" 3 start
     = Some (profile_ids, w') ->
     (Z.of_nat (size profile_ids) < 3 + Z.of_nat 2)%Z).
Proof.
  split.
  - apply (proj1 (cap_overshoot_below_one_page api (1 # 2) two_pages 2 5
                    "SEG1" "No Delta 8" 0%Z start)).
    lia.
  - apply (proj2 (cap_overshoot_below_one_page api (1 # 2) two_pages 2 5
                    "SEG1" "No Delta 8" 3%Z start)).
    + lia.
    + intros n url ps. unfold two_pages.
      destruct (n =? 0)%nat; simpl; lia.
Defined.

Lemma profiles_loop_endless_witness :
  profiles_loop (1 # 2) endless 1000 50000 (Some seg1_profiles_url) ∅ start
  = None.
Proof.
  apply (profiles_loop_endless (1 # 2) endless {[ "a" ]} 50000%Z 1000).
  - vm_compute. reflexivity.
  - reflexivity.
  - apply (bool_decide_unpack _). vm_compute. exact I.
  - intros n url ps _. split; [reflexivity |]. split; [reflexivity |].
    intros x Hx. simpl in Hx. apply list_elem_of_singleton in Hx as ->.
    apply (bool_decide_unpack _). vm_compute. exact I.
Defined.

Lemma find_segment_ignores_case_witness :
  find_segment ascii_lower scenario_segments "NO THCA"
  = find_segment ascii_lower scenario_segments "no thca".
Proof.
  apply (find_segment_ignores_case ascii_lower). reflexivity.
Defined.

Lemma find_segment_empty_search_witness :
  find_segment ascii_lower scenario_segments "" = None /\
  find_segment ascii_lower [Segment "S1" "No Delta 8"] ""
  = Some (Segment "S1" "No Delta 8").
Proof.
  split.
  - apply (find_segment_empty_search ascii_lower scenario_segments).
    + reflexivity.
    + intros s Hs. each_elem Hs; discriminate.
  - apply (find_segment_empty_search ascii_lower [Segment "S1" "No Delta 8"]).
    + reflexivity.
    + intros s Hs. each_elem Hs; discriminate.
Defined.

Ltac by_computation := apply (bool_decide_unpack _); vm_compute; exact I.

Lemma overlap_counts_consistent_witness :
  exists ab only ac abc,
    overlap_analysis three_sets
    = {| no_d8_and_no_thca := Some ab; only_d8 := Some only;
         no_d8_and_semi_active := Some ac; three_way := Some abc |} /\
    abc <= ab /\ abc <= ac /\
    ab <= size ({[ "1"; "2"; "3"; "4" ]} : gset string) /\
    ab <= size ({[ "3"; "4"; "5"; "6" ]} : gset string) /\
    ac <= size ({[ "1"; "2"; "3"; "4" ]} : gset string) /\
    ac <= size ({[ "4"; "6"; "7" ]} : gset string) /\
    only <= size ({[ "1"; "2"; "3"; "4" ]} : gset string) /\
    ab + ac <= size ({[ "1"; "2"; "3"; "4" ]} : gset string) + abc.
Proof.
  apply (overlap_counts_consistent three_sets).
  - vm_compute. reflexivity.
  - vm_compute. reflexivity.
  - vm_compute. reflexivity.
Defined.

Example three_sets_report :
  overlap_analysis three_sets
  = {| no_d8_and_no_thca := Some 2; only_d8 := Some 2;
       no_d8_and_semi_active := Some 1; three_way := Some 1 |}.
Proof. vm_compute. reflexivity. Qed.

Lemma overlap_of_truncated_sets_witness :
  exists ab' only' ab only,
    no_d8_and_no_thca (overlap_analysis three_sets_cut) = Some ab' /\
    only_d8 (overlap_analysis three_sets_cut) = Some only' /\
    no_d8_and_no_thca (overlap_analysis three_sets) = Some ab /\
    only_d8 (overlap_analysis three_sets) = Some only /\
    ab' <= ab /\
    only' <= only + (size ({[ "3"; "4"; "5"; "6" ]} : gset string)
                     - size ({[ "5"; "6" ]} : gset string)).
Proof.
  apply (overlap_of_truncated_sets three_sets_cut three_sets
           {[ "1"; "2"; "3"; "4" ]} {[ "5"; "6" ]}
           {[ "1"; "2"; "3"; "4" ]} {[ "3"; "4"; "5"; "6" ]}).
  - vm_compute. reflexivity.
  - vm_compute. reflexivity.
  - vm_compute. reflexivity.
  - vm_compute. reflexivity.
  - by_computation.
  - by_computation.
Defined.

(** With "No THCA" cut down to two profiles the report says that all
    four "No Delta 8" profiles have tried THCA; in truth two have. *)
Example three_sets_cut_report :
  only_d8 (overlap_analysis three_sets_cut) = Some 4 /\
  only_d8 (overlap_analysis three_sets) = Some 2.
Proof. split; vm_compute; reflexivity. Qed.

Lemma revenue_dictionary_last_wins_witness :
  exists revenue_data,
    revenue_by_campaign_of round2_of_scenarios scenario_results = Some revenue_data /\
    revenue_data !! "M1" = Some {| revenue := 20 # 1; orders := 3 |} /\
    revenue_data !! "" = None.
Proof.
  destruct (revenue_by_campaign_of round2_of_scenarios scenario_results)
    as [revenue_data|] eqn:E; [|vm_compute in E; discriminate].
  exists revenue_data. split; [reflexivity |]. split.
  - apply (revenue_dictionary_last_wins round2_of_scenarios scenario_results
             revenue_data E).
    exists [result_for "M1" (10 # 1) 1; result_for "" (99 # 1) 9;
            result_for "M2" (5 # 1) 2],
           (result_for "M1" (20 # 1) 3), [].
    split; [reflexivity |]. split; [reflexivity |].
    split; [discriminate |]. split; [reflexivity |].
    intros r Hr. apply elem_of_nil in Hr. contradiction.
  - destruct (revenue_data !! "") as [e|] eqn:He; [|reflexivity].
    apply (revenue_dictionary_last_wins round2_of_scenarios scenario_results
             revenue_data E) in He as (l1 & result & l2 & _ & _ & Hne & _).
    congruence.
Defined.

Lemma revenue_dictionary_raises_witness :
  revenue_by_campaign_of round2_of_scenarios broken_results = None /\
  revenue_by_campaign_of round2_of_scenarios overflow_results = None.
Proof.
  split.
  - apply (revenue_dictionary_raises round2_of_scenarios api grouped_down
             broken_results
             {| agg_dimensions := Some (Dim_list ["M2"]);
                agg_sum_value := Some (M_list [Num (5 # 1)]);
                agg_count := Some (M_list []) |}).
    + apply elem_of_cons; right; left.
    + discriminate.
    + right. left. reflexivity.
  - apply (revenue_dictionary_raises round2_of_scenarios api grouped_down
             overflow_results (result_for "M2" (inject_Z (10 ^ 400)) 1)).
    + apply elem_of_cons; right; left.
    + discriminate.
    + right. right. left. exists (inject_Z (10 ^ 400)).
      split; [reflexivity | vm_compute; reflexivity].
Defined.

Lemma placed_order_first_match_witness :
  exists result w' new,
    get_placed_order_metric_id api ascii_lower metrics_two_pages 5 export_start
    = Some (result, w') /\
    trace w' = trace export_start ++ new /\
    result = option_map m_id
               (List.find (is_placed_order ascii_lower) (metrics_seen new)).
Proof.
  destruct (get_placed_order_metric_id api ascii_lower metrics_two_pages 5
              export_start) as [[result w']|] eqn:E;
    [|vm_compute in E; discriminate].
  destruct (placed_order_first_match api ascii_lower metrics_two_pages 5
              export_start result w' E) as (new & H).
  exists result, w', new. split; [reflexivity | exact H].
Defined.

Example placed_order_found :
  option_map fst
    (get_placed_order_metric_id api ascii_lower metrics_two_pages 5 export_start)
  = Some (Some "PO").
Proof. vm_compute. reflexivity. Qed.

Lemma placed_order_search_witness :
  (exists new,
     get_placed_order_metric_id api ascii_lower metrics_two_pages (1 + 1)
       export_start
     = Some (Some "PO",
             {| calls := calls export_start + 2;
                trace := trace export_start ++ new |}) /\
     naps_of new = repeat (1 # 2)%Q 1) /\
  (exists new,
     get_placed_order_metric_id api ascii_lower metrics_then_429 (1 + 1)
       export_start
     = Some (None,
             {| calls := calls export_start + 2;
                trace := trace export_start ++ new |}) /\
     naps_of new = repeat (1 # 2)%Q 1) /\
  (exists new,
     get_placed_order_metric_id api ascii_lower metrics_without (1 + 0)
       export_start
     = Some (None,
             {| calls := calls export_start + 1;
                trace := trace export_start ++ new |}) /\
     naps_of new = repeat (1 # 2)%Q 1).
Proof.
  split; [|split].
  - apply (proj1 (placed_order_search api ascii_lower metrics_two_pages
                    metrics_urls 1 0 export_start eq_refl
                    ltac:(intros j Hj; destruct j as [|j]; [|lia];
                          exists metrics_start_url;
                          repeat (split; [first [reflexivity | discriminate] |]);
                          reflexivity))
             metrics_page2_url (metric_named "PO" "Placed Order")).
    + reflexivity.
    + discriminate.
    + reflexivity.
    + reflexivity.
  - apply (proj1 (proj2 (placed_order_search api ascii_lower metrics_then_429
                    metrics_urls 1 0 export_start eq_refl
                    ltac:(intros j Hj; destruct j as [|j]; [|lia];
                          exists metrics_start_url;
                          repeat (split; [first [reflexivity | discriminate] |]);
                          reflexivity)))
             metrics_page2_url).
    + reflexivity.
    + discriminate.
    + simpl. lia.
  - apply (proj2 (proj2 (placed_order_search api ascii_lower metrics_without
                    (fun k => if (k =? 0)%nat then Some metrics_start_url else None)
                    1 0 export_start eq_refl
                    ltac:(intros j Hj; destruct j as [|j]; [|lia];
                          exists metrics_start_url;
                          repeat (split; [first [reflexivity | discriminate] |]);
                          reflexivity)))).
    reflexivity.
Defined.

Example get_campaigns_scenario :
  fst (get_campaigns api messages_then_429
         (Some ("campaign_features.csv", scenario_rows)) export_start)
  = [ {| campaign_id := "C1"; campaign_name := "Spring"; subject := "Hi";
         send_time := "2025-03-01"; message_id := Some "M1" |};
      {| campaign_id := "C2"; campaign_name := "Summer"; subject := "Hey";
         send_time := "2025-06-01"; message_id := None |} ].
Proof. vm_compute. reflexivity. Qed.

Lemma failed_lookup_gives_zero_revenue_witness :
  exists c,
    fst (get_campaigns api messages_then_429
           (Some ("campaign_features.csv", scenario_rows)) export_start) !! 1
    = Some c /\
    c = campaign_of
          {| csv_campaign_id := "C2"; csv_campaign_name := "Summer";
             csv_subject := "Hey"; csv_send_time := "2025-06-01" |} None /\
    forall revenue_data,
      match_campaign revenue_data c
      = {| row_campaign := c; row_revenue := 0; row_orders := 0 |}.
Proof.
  apply (failed_lookup_gives_zero_revenue api messages_then_429
           "campaign_features.csv" scenario_rows export_start 1
           {| csv_campaign_id := "C2"; csv_campaign_name := "Summer";
              csv_subject := "Hey"; csv_send_time := "2025-06-01" |}).
  - reflexivity.
  - left. vm_compute. discriminate.
Defined.

Lemma failed_aggregate_gives_all_zero_witness :
  exists w',
    get_all_campaign_revenue api grouped_down round2_of_scenarios
      "PO" "2025-01-01" "2025-12-31" export_start = Some (∅, w') /\
    calls w' = 1 /\
    forall campaigns,
      match_revenue ∅ campaigns 0 0
      = (map (fun c => {| row_campaign := c; row_revenue := 0;
                          row_orders := 0 |}) campaigns, 0%Z, 0).
Proof.
  apply (failed_aggregate_gives_all_zero api grouped_down round2_of_scenarios
           "PO" "2025-01-01" "2025-12-31" export_start).
  vm_compute. discriminate.
Defined.

Lemma retries_then_last_page_witness :
  exists new,
    get_segment_profile_ids api (1 # 2) two_429_then_page (2 + 1)
      "SEG1" "No Delta 8" 50000 start
    = Some (add_profiles [profile "a"; profile "b"] ∅,
            {| requests := requests start + 3; log := log start ++ new |}) /\
    sleeps_of new = repeat 30%Q 2 /\
    map (fun g => fst (fst g)) (gets_of new)
    = repeat (profiles_url api "SEG1") 3.
Proof.
  apply (retries_then_last_page api (1 # 2) two_429_then_page 2 0
           "SEG1" "No Delta 8" 50000 start).
  - lia.
  - intros i Hi. destruct i as [|[|i]]; [reflexivity | reflexivity | lia].
  - reflexivity.
  - reflexivity.
Defined.


(** A revenue of [10**400] ends the call in [OverflowError] before the
    figures are printed; a count of [1e400] ends it in [OverflowError]
    after they are. *)
Example revenue_too_large :
  (exists w,
     get_campaign_revenue api aggregates_overflow round2_of_scenarios 3
       "C1" "Spring" "PO" "2025-01-01" "2025-12-31" false start
     = Raises OverflowError w /\
     last (log w)
     = Some (Post (aggregates_url api)
               (campaign_query "C1" "PO" "2025-01-01" "2025-12-31")
               (aggregates_overflow 2 "" (campaign_query "" "" "" "")))) /\
  (exists w,
     get_campaign_revenue api aggregates_inf_count round2_of_scenarios 3
       "C1" "Spring" "PO" "2025-01-01" "2025-12-31" false start
     = Raises OverflowError w /\
     last (log w) = Some (Print (Revenue_line (25 # 2) (Inf false)))).
Proof.
  split; eexists; (split; [vm_compute; reflexivity | reflexivity]).
Qed.
